(** * raider/request.py: requests, templates and plugin resolution

    A shallow embedding of [raider.request]: the three resolver functions
    ([process_cookies], [process_headers], [process_data] with its inner
    [traverse_dict]), [Request] with [list_inputs] and [send], and
    [Template] with its [__call__].

    The module works on Python objects that are shared and updated in
    place (dictionaries nested in a body group, stores, plugins, the
    request itself), so the embedding has an explicit object store: a
    [heap] is the list of all objects allocated so far and an object's
    identity ([loc]) is its position in that list.  Dictionaries keep
    their insertion order and are association lists.  Exceptions are
    values of [exn] carried by [result]; an exception ends the computation
    and the store it leaves behind is not kept.

    [request.py] imports [Plugin] from [raider.plugins.common], the stores
    from [raider.structures] and [colors] from [raider.utils], none of
    which is among the sources.  A plugin is a record of the attributes
    that [request.py] reads; what is used of the stores ([to_dict], the
    constructors, [merge], iteration over the keys in order, lookup by key)
    is modelled from the description of the value containers; the colour
    table, the operator's replies at the terminal and [urlencode] are
    parameters. *)

From stdpp Require Import base list strings.

Local Open Scope string_scope.
Local Open Scope list_scope.

(** ** Exceptions and the error monad *)

Inductive exn : Set :=
| KeyError
| AttributeError
| TypeError
| RecursionError.

Inductive result (A : Type) : Type :=
| Ok (a : A)
| Raise (e : exn).

Arguments Ok {A} a.
Arguments Raise {A} e.

#[global] Instance result_ret : MRet result := fun _ a => Ok a.

#[global] Instance result_bind : MBind result := fun _ _ f m =>
  match m with
  | Ok a => f a
  | Raise e => Raise e
  end.

(** A [for] loop whose body may raise: the state is threaded through the
    items from left to right and the first exception ends the loop. *)
Fixpoint for_each {A S : Type} (body : S -> A -> result S)
    (items : list A) (s : S) : result S :=
  match items with
  | [] => Ok s
  | x :: rest => s' ← body s x; for_each body rest s'
  end.

(** ** Values, keys and dictionaries *)

(** The identity of an object ([id(x)]). *)
Abbreviation loc := nat.

(** A dictionary key is a string or an object hashed by identity (a plugin
    used as a body key). *)
Inductive key : Set :=
| KStr (s : string)
| KObj (l : loc).

(** What a slot can hold: [None], a string, or a reference to an object. *)
Inductive value : Set :=
| VNone
| VStr (s : string)
| VRef (l : loc).

#[global] Instance key_eq_dec : EqDecision key.
Proof. solve_decision. Defined.

#[global] Instance value_eq_dec : EqDecision value.
Proof. solve_decision. Defined.

(** A Python [dict]: unique keys, insertion order. *)
Abbreviation pydict := (list (key * value)).

(** [d.get(k)] *)
Fixpoint dict_get (d : pydict) (k : key) : option value :=
  match d with
  | [] => None
  | (k', v) :: d' => if decide (k = k') then Some v else dict_get d' k
  end.

(** [d[k]] *)
Definition dict_getitem (d : pydict) (k : key) : result value :=
  match dict_get d k with
  | Some v => Ok v
  | None => Raise KeyError
  end.

(** The entries of [d] without the one filed under [k]. *)
Definition dict_remove (d : pydict) (k : key) : pydict :=
  filter (fun e => k <> e.1) d.

(** [d.pop(k)]: the value and the remaining dictionary, [KeyError] when the
    key is missing. *)
Definition dict_pop (d : pydict) (k : key) : result (value * pydict) :=
  match dict_get d k with
  | Some v => Ok (v, dict_remove d k)
  | None => Raise KeyError
  end.

(** [d.pop(k)] as a statement, its value dropped. *)
Definition dict_del (d : pydict) (k : key) : result pydict :=
  match dict_get d k with
  | Some _ => Ok (dict_remove d k)
  | None => Raise KeyError
  end.

(** [d[k] = v], also [d.update({k: v})]: an existing key keeps its place,
    a new one goes to the end. *)
Fixpoint dict_set (d : pydict) (k : key) (v : value) : pydict :=
  match d with
  | [] => [(k, v)]
  | (k', v') :: d' =>
      if decide (k = k') then (k', v) :: d' else (k', v') :: dict_set d' k v
  end.

(** [d.update(other)] *)
Definition dict_update (d other : pydict) : pydict :=
  foldl (fun acc e => dict_set acc e.1 e.2) d other.

(** ** Plugins, stores, requests *)

(** The user-data context ([pconfig.active_user.to_dict()]). *)
Abbreviation userdata := (list (string * string)).

(** Modelled from the spec: the Plugin capability of the data model
    ([raider.plugins.common.Plugin] is not part of the sources): the name,
    the composite flag with the children, the flag of a name that is only
    known after resolution, and the resolution against the user data, which
    reads the context and writes nothing.  The attribute names are the ones
    [request.py] uses. *)
Record Plugin : Type := {
  name : string;
  depends_on_other_plugins : bool;
  plugins : list loc;
  name_not_known_in_advance : bool;
  get_value : userdata -> option string
}.

(** The attributes of a [Request] that [request.py] reads or writes.
    [function] names the bound transport function, [logger] the logger
    sink once [send] has set it; [kwargs] keeps the keyword names the request
    was built with, which is all [send] asks of it. *)
Record Request : Type := {
  method : string;
  function : string;
  url : value;
  logger : option string;
  headers : loc;
  cookies : loc;
  data : loc;
  kwargs : list string
}.

(** The objects of the store.  [OStore] is a [DataStore], [HeaderStore] or
    [CookieStore] with its mapping; [ODict] is a plain dictionary. *)
Inductive obj : Type :=
| OPlugin (p : Plugin)
| ODict (d : pydict)
| OStore (d : pydict)
| ORequest (r : Request).

Abbreviation heap := (list obj).

Definition alloc (h : heap) (o : obj) : heap * loc := (h ++ [o], length h).

Definition get_plugin (h : heap) (v : value) : option Plugin :=
  match v with
  | VRef l => match h !! l with Some (OPlugin p) => Some p | _ => None end
  | _ => None
  end.

(** [isinstance(k, Plugin)] for a key. *)
Definition get_key_plugin (h : heap) (k : key) : option Plugin :=
  match k with
  | KObj l => get_plugin h (VRef l)
  | KStr _ => None
  end.

(** Reading an attribute of a plugin off a value that is none raises
    [AttributeError]. *)
Definition as_plugin (h : heap) (v : value) : result Plugin :=
  match get_plugin h v with
  | Some p => Ok p
  | None => Raise AttributeError
  end.

(** Modelled from the spec: [DataStore.to_dict] ([raider.structures] is not
    part of the sources), the flattening of a store to its plain mapping.
    It hands out the store's own mapping, which is why every caller in
    [request.py] takes a [.copy()] of it. *)
Definition to_dict (h : heap) (l : loc) : result pydict :=
  match h !! l with
  | Some (OStore d) => Ok d
  | _ => Raise AttributeError
  end.

Definition get_dict (h : heap) (l : loc) : result pydict :=
  match h !! l with
  | Some (ODict d) => Ok d
  | _ => Raise TypeError
  end.

Definition get_request (h : heap) (l : loc) : result Request :=
  match h !! l with
  | Some (ORequest r) => Ok r
  | _ => Raise AttributeError
  end.

(** Python's truth value of an optional string: [None] and the empty string
    are false. *)
Definition truthy (v : option string) : bool :=
  match v with
  | Some s => negb (String.eqb s EmptyString)
  | None => false
  end.

(** The string of an optional string that is true. *)
Definition str_of (v : option string) : string := default EmptyString v.

Definition lower_ascii (c : Ascii.ascii) : Ascii.ascii :=
  let n := Ascii.nat_of_ascii c in
  if Nat.leb 65 n && Nat.leb n 90 then Ascii.ascii_of_nat (n + 32) else c.

(** [s.lower()], on ASCII letters. *)
Fixpoint lower (s : string) : string :=
  match s with
  | EmptyString => EmptyString
  | String c s' => String (lower_ascii c) (lower s')
  end.

(** The run configuration, as far as [request.py] reads it:
    [active_user] stands for [pconfig.active_user.to_dict() or {}]. *)
Record Config : Type := {
  verify : bool;
  use_proxy : bool;
  proxy : string;
  user_agent : string;
  active_user : userdata;
  config_logger : string
}.

(** ** The resolver functions *)

Section Resolvers.

(** The colour table of [raider.utils] and the operator at the terminal:
    [input prompt] is the line typed in reply to [prompt], a function of
    the prompt alone. *)
Variable colors : string -> string.
Variable input : string -> string.

Definition dquote : string := String (Ascii.ascii_of_nat 34) EmptyString.
Definition newline : string := String (Ascii.ascii_of_nat 10) EmptyString.

Definition prompt_empty_value (element nm : string) : string :=
  let value :=
    input (colors "GREEN-BLACK-B"
           +:+ element
           +:+ " " +:+ dquote
           +:+ colors "RED-BLACK-B"
           +:+ nm
           +:+ colors "GREEN-BLACK-B"
           +:+ dquote +:+ " has an empty value. "
           +:+ "Input its value manually (enter to skip)" +:+ newline
           +:+ colors "YELLOW-BLACK-B"
           +:+ nm
           +:+ " = ") in
  value.

(** [value = p.get_value(userdata)] followed by
    [if not value: value = prompt_empty_value(element, nm)]. *)
Definition value_or_prompt (element nm : string) (value : option string) : option string :=
  if truthy value then value else Some (prompt_empty_value element nm).

(** One turn of the loop of [process_cookies]. *)
Definition process_cookies_body (h : heap) (raw_cookies : pydict) (ud : userdata)
    (cookies : pydict) (k : key) : result pydict :=
  c ← dict_getitem raw_cookies k;
  p ← as_plugin h c;
  let nm := name p in
  cookies ← (if name_not_known_in_advance p
             then dict_del cookies k
             else Ok cookies);
  let value := get_value p ud in
  let value := value_or_prompt "Cookie" nm value in
  if negb (truthy value)
  then dict_del cookies k
  else Ok (dict_set cookies (KStr nm) (VStr (str_of value))).

Definition process_cookies (h : heap) (raw_cookies : loc) (ud : userdata) : result pydict :=
  raw ← to_dict h raw_cookies;
  let cookies := raw in
  for_each (process_cookies_body h raw ud) (raw.*1) cookies.

(** One turn of the loop of [process_headers]. *)
Definition process_headers_body (h : heap) (raw_headers : pydict) (ud : userdata)
    (headers : pydict) (k : key) : result pydict :=
  c ← dict_getitem raw_headers k;
  p ← as_plugin h c;
  let nm := name p in
  headers ← (if name_not_known_in_advance p
             then dict_del headers k
             else Ok headers);
  let value := get_value p ud in
  let value := value_or_prompt "Header" nm value in
  if negb (truthy value)
  then dict_del headers (KStr (lower nm))
  else Ok (dict_set headers (KStr nm) (VStr (str_of value))).

Definition process_headers (h : heap) (raw_headers : loc) (ud : userdata)
    (pconfig : Config) : result pydict :=
  raw ← to_dict h raw_headers;
  let headers := raw in
  let headers := dict_set headers (KStr "user-agent") (VStr (user_agent pconfig)) in
  for_each (process_headers_body h raw ud) (raw.*1) headers.

(** [data[...] = ...] on the dictionary object at [l]: the object is
    updated in place, so every holder of a reference to it sees the new
    mapping. *)
Definition set_dict (h : heap) (l : loc) (d : pydict) : heap := <[l := ODict d]> h.

(** [sys.getrecursionlimit()]: the depth at which the interpreter gives
    up on a recursion. *)
Definition recursion_limit : nat := 1000.

(** One turn of the loop of [traverse_dict] over the dictionary object
    [data]; [rec] is the recursive call on a nested dictionary. *)
Definition traverse_dict_body (rec : heap -> loc -> result heap) (ud : userdata)
    (data : loc) (h : heap) (k : key) : result heap :=
  d ← get_dict h data;
  value ← dict_getitem d k;
  h ← match get_plugin h value with
      | Some p =>
          let new_value := get_value p ud in
          let new_value := value_or_prompt "Value" (name p) new_value in
          if negb (truthy new_value)
          then d' ← dict_del d k; Ok (set_dict h data d')
          else Ok (set_dict h data (dict_set d k (VStr (str_of new_value))))
      | None =>
          match value with
          | VRef l =>
              match h !! l with
              | Some (ODict _) => rec h l
              | _ => Ok h
              end
          | _ => Ok h
          end
      end;
  match get_key_plugin h k with
  | Some p =>
      d ← get_dict h data;
      '(new_value, d) ← dict_pop d k;
      let new_key := get_value p ud in
      let new_key := value_or_prompt "Key" (name p) new_key in
      if negb (truthy new_key)
      then d' ← dict_del d k; Ok (set_dict h data d')
      else Ok (set_dict h data (dict_set d (KStr (str_of new_key)) new_value))
  | None => Ok h
  end.

(** [traverse_dict(data, userdata)]: the loop runs over [list(data)], the
    keys as they were on entry; [depth] is the recursion depth left. *)
Fixpoint traverse_dict (depth : nat) (h : heap) (data : loc) (ud : userdata)
    : result heap :=
  match depth with
  | 0 => Raise RecursionError
  | S depth' =>
      d ← get_dict h data;
      for_each
        (traverse_dict_body (fun h' l => traverse_dict depth' h' l ud) ud data)
        (d.*1) h
  end.

(** One turn of the loop of [process_data]: [new_dict] is a new dictionary
    object with the entries of the group's store (a shallow copy). *)
Definition process_data_body (ud : userdata) (st : heap * pydict)
    (item : key * value) : result (heap * pydict) :=
  let '(h, httpdata) := st in
  let '(k, value) := item in
  store ← match value with
          | VRef l => to_dict h l
          | _ => Raise AttributeError
          end;
  let '(h, new_dict) := alloc h (ODict store) in
  h ← traverse_dict recursion_limit h new_dict ud;
  Ok (h, dict_set httpdata k (VRef new_dict)).

Definition process_data (h : heap) (raw_data : loc) (ud : userdata)
    : result (heap * pydict) :=
  raw ← get_dict h raw_data;
  for_each (process_data_body ud) raw (h, []).

(** ** Request *)

(** A keyword argument of the constructor: a list of cookies or headers
    (references to plugins), a mapping, or [None]. *)
Inductive kwarg : Set :=
| KwPlugins (l : list loc)
| KwDict (d : pydict)
| KwNone.

Fixpoint kwargs_get (kw : list (string * kwarg)) (k : string) : kwarg :=
  match kw with
  | [] => KwNone
  | (k', v) :: kw' => if decide (k = k') then v else kwargs_get kw' k
  end.

(** Modelled from the spec: the constructor shared by [HeaderStore] and
    [CookieStore] ([raider.structures] is not part of the sources): an
    ordered mapping from each entry's name to the entry, a later entry of
    the same name replacing the earlier one. *)
Definition plugin_store (h : heap) (arg : kwarg) : result pydict :=
  match arg with
  | KwNone => Ok []
  | KwPlugins l =>
      for_each (fun d e => p ← as_plugin h (VRef e);
                           Ok (dict_set d (KStr (name p)) (VRef e))) l []
  | KwDict _ => Raise AttributeError
  end.

Definition HeaderStore := plugin_store.
Definition CookieStore := plugin_store.

(** Modelled from the spec: the constructor of [DataStore]
    ([raider.structures] is not part of the sources), a store over the
    given mapping, empty when none is given. *)
Definition DataStore (arg : kwarg) : result pydict :=
  match arg with
  | KwNone => Ok []
  | KwDict d => Ok d
  | KwPlugins _ => Raise TypeError
  end.

(** Modelled from the spec: [merge] of a store ([raider.structures] is not
    part of the sources): the union of the two, the entries of [other]
    taking precedence on a name both have. *)
Definition merge (d other : pydict) : pydict := dict_update d other.

Definition body_groups : list string := ["params"; "data"; "json"; "multipart"].

(** The loop of [Request.__init__] that files each body group given as a
    keyword under its name, in a store of its own. *)
Definition init_data_body (st : heap * pydict) (item : string * kwarg)
    : result (heap * pydict) :=
  let '(h, d) := st in
  let '(nm, v) := item in
  if bool_decide (nm ∈ body_groups)
  then s ← DataStore v;
       let '(h, l) := alloc h (OStore s) in
       Ok (h, dict_set d (KStr nm) (VRef l))
  else Ok (h, d).

(** [Request.__init__(function, url, method, **kwargs)]: the new request
    and the objects it owns are added to the store. *)
Definition Request_init (h : heap) (fn : string) (u : value) (m : string)
    (kw : list (string * kwarg)) : result (heap * loc) :=
  hs ← HeaderStore h (kwargs_get kw "headers");
  let '(h, lh) := alloc h (OStore hs) in
  cs ← CookieStore h (kwargs_get kw "cookies");
  let '(h, lc) := alloc h (OStore cs) in
  '(h, d) ← for_each init_data_body kw (h, []);
  let '(h, ld) := alloc h (ODict d) in
  Ok (alloc h (ORequest {| method := m; function := fn; url := u;
                           logger := None; headers := lh; cookies := lc;
                           data := ld; kwargs := kw.*1 |})).

Definition Request_get h u kw := Request_init h "requests.get" u "GET" kw.
Definition Request_put h u kw := Request_init h "requests.put" u "PUT" kw.
Definition Request_patch h u kw := Request_init h "requests.patch" u "PATCH" kw.
Definition Request_head h u kw := Request_init h "requests.head" u "HEAD" kw.
Definition Request_delete h u kw := Request_init h "requests.delete" u "DELETE" kw.
Definition Request_connect h u kw := Request_init h "requests.request" u "CONNECT" kw.
Definition Request_options h u kw := Request_init h "requests.options" u "OPTIONS" kw.
Definition Request_trace h u kw := Request_init h "requests.request" u "TRACE" kw.
Definition Request_custom h m u kw := Request_init h "requests.request" u m kw.

(** [get_children_plugins(plugin)] of [list_inputs]. *)
Definition get_children_plugins (h : heap) (p : Plugin) : result pydict :=
  if depends_on_other_plugins p
  then for_each (fun output item => ip ← as_plugin h (VRef item);
                                    Ok (dict_set output (KStr (name ip)) (VRef item)))
                (plugins p) []
  else Ok [].

(** [inputs.update({k: v})] followed by
    [inputs.update(get_children_plugins(v))]. *)
Definition register_input (h : heap) (inputs : pydict) (k : key) (v : value)
    : result pydict :=
  let inputs := dict_set inputs k v in
  p ← as_plugin h v;
  children ← get_children_plugins h p;
  Ok (dict_update inputs children).

(** The loop of [list_inputs] over a store: each entry is filed under the
    key the store has it under. *)
Definition list_inputs_store (h : heap) (store : pydict) (inputs : pydict)
    : result pydict :=
  for_each (fun inputs nm => e ← dict_getitem store nm;
                             register_input h inputs nm e)
           (store.*1) inputs.

(** One turn of the loop of [list_inputs] over [self.data.items()]. *)
Definition list_inputs_data_body (h : heap) (inputs : pydict)
    (item : key * value) : result pydict :=
  let '(k, value) := item in
  inputs ← match k, get_key_plugin h k with
           | KObj l, Some p => register_input h inputs (KStr (name p)) (VRef l)
           | _, _ => Ok inputs
           end;
  match get_plugin h value with
  | Some p => register_input h inputs (KStr (name p)) value
  | None => Ok inputs
  end.

Definition list_inputs (h : heap) (self : loc) : result pydict :=
  r ← get_request h self;
  let inputs := [] in
  inputs ← match get_plugin h (url r) with
           | Some p => register_input h inputs (KStr (name p)) (url r)
           | None => Ok inputs
           end;
  cs ← to_dict h (cookies r);
  inputs ← list_inputs_store h cs inputs;
  hs ← to_dict h (headers r);
  inputs ← list_inputs_store h hs inputs;
  d ← get_dict h (data r);
  for_each (list_inputs_data_body h) d inputs.

(** ** send *)

(** What the logger receives. *)
Inductive log_arg : Set :=
| AStr (s : string)
| AValue (v : value)
| ADict (d : pydict)
| AOpt (o : option string)
| AOptValue (o : option value).

Inductive log_record : Set :=
| Warning (msg : string)
| Debug (fmt : string) (args : list log_arg).

(** The call of the bound transport function, with its arguments. *)
Record transport_call : Set := {
  call_function : string;
  call_url : value;
  call_headers : pydict;
  call_cookies : pydict;
  call_proxies : option string;
  call_verify : bool;
  call_allow_redirects : bool;
  call_params : option string;
  call_data : option value;
  call_json : option value;
  call_files : option value
}.

(** [urllib.parse.urlencode(d, quote_via=urllib.parse.quote)], a function
    of the standard library. *)
Variable urlencode : pydict -> string.

(** [sep.join(l)] *)
Fixpoint join (sep : string) (l : list string) : string :=
  match l with
  | [] => EmptyString
  | [x] => x
  | x :: rest => x +:+ sep +:+ join sep rest
  end.

(** [{"data", "json", "multipart"}.intersection(set(self.kwargs))]; a set
    has no order of its own, the groups are listed here in the order of
    the literal. *)
Definition body_attrs (kw : list string) : list string :=
  filter (fun a => a ∈ kw) ["data"; "json"; "multipart"].

(** The warning of [send] about the body groups, if any. *)
Definition body_warning (m : string) (attrs : list string) : list log_record :=
  if bool_decide (m = "GET") && bool_decide (attrs <> [])
  then [Warning ("GET requests can only contain :params. Ignoring :"
                 +:+ join ", :" attrs)]
  else if bool_decide (attrs <> [])
  then [Warning (m +:+ " requests cannot contain :" +:+ join ", :" attrs
                 +:+ " at the same time. Undefined behaviour!")]
  else [].

(** [self.url = self.url.get_value(userdata)] *)
Definition resolved_url (v : option string) : value :=
  match v with
  | Some s => VStr s
  | None => VNone
  end.

Definition set_url (r : Request) (u : value) : Request :=
  {| method := method r; function := function r; url := u; logger := logger r;
     headers := headers r; cookies := cookies r; data := data r;
     kwargs := kwargs r |}.

Definition set_method (r : Request) (m : string) : Request :=
  {| method := m; function := function r; url := url r; logger := logger r;
     headers := headers r; cookies := cookies r; data := data r;
     kwargs := kwargs r |}.

Definition set_logger (r : Request) (l : option string) : Request :=
  {| method := method r; function := function r; url := url r; logger := l;
     headers := headers r; cookies := cookies r; data := data r;
     kwargs := kwargs r |}.

(** [send(self, pconfig)] up to the call of the transport function: the
    store after it, the log records in order, and the call that is made. *)
Definition send (h : heap) (self : loc) (pconfig : Config)
    : result (heap * list log_record * transport_call) :=
  r ← get_request h self;
  let ud := active_user pconfig in
  let r := set_logger r (Some (config_logger pconfig)) in
  let proxies := if use_proxy pconfig then Some (proxy pconfig) else None in
  let r := match get_plugin h (url r) with
           | Some p => set_url r (resolved_url (get_value p ud))
           | None => r
           end in
  let h := <[self := ORequest r]> h in
  cookies' ← process_cookies h (cookies r) ud;
  headers' ← process_headers h (headers r) ud pconfig;
  '(h, processed) ← process_data h (data r) ud;
  params ← (if bool_decide ("params" ∈ kwargs r)
            then v ← dict_getitem processed (KStr "params");
                 match v with
                 | VRef l => d ← get_dict h l; Ok (Some (urlencode d))
                 | _ => Raise TypeError
                 end
            else Ok None);
  let attrs := body_attrs (kwargs r) in
  let log :=
    body_warning (method r) attrs ++
    [ Debug "Sending HTTP request:" [];
      Debug "%s %s" [AStr (method r); AValue (url r)];
      Debug "Cookies: %s" [ADict cookies'];
      Debug "Headers: %s" [ADict headers'];
      Debug "Params: %s" [AOpt params];
      Debug "Data: %s" [AOptValue (dict_get processed (KStr "data"))];
      Debug "JSON: %s" [AOptValue (dict_get processed (KStr "json"))];
      Debug "Multipart: %s" [AOptValue (dict_get processed (KStr "multipart"))] ] in
  Ok (h, log,
      {| call_function := function r;
         call_url := url r;
         call_headers := headers';
         call_cookies := cookies';
         call_proxies := proxies;
         call_verify := verify pconfig;
         call_allow_redirects := false;
         call_params := params;
         call_data := dict_get processed (KStr "data");
         call_json := dict_get processed (KStr "json");
         call_files := dict_get processed (KStr "multipart") |}).

End Resolvers.

(** ** Template *)

(** [copy.deepcopy]: every object reachable from the argument is copied
    once and the copies refer to one another the way the originals do.
    With identities being positions, the copy of the object at [l] is put
    at [l + n], [n] the size of the store before the call, and every
    reference inside a copy is moved by [n] as well.  Objects that the
    argument does not reach are copied too; nothing refers to those copies
    but themselves. *)
Definition shift_key (n : nat) (k : key) : key :=
  match k with
  | KStr s => KStr s
  | KObj l => KObj (l + n)
  end.

Definition shift_value (n : nat) (v : value) : value :=
  match v with
  | VNone => VNone
  | VStr s => VStr s
  | VRef l => VRef (l + n)
  end.

Definition shift_dict (n : nat) (d : pydict) : pydict :=
  map (fun e => (shift_key n e.1, shift_value n e.2)) d.

Definition shift_obj (n : nat) (o : obj) : obj :=
  match o with
  | OPlugin p =>
      OPlugin {| name := name p;
                 depends_on_other_plugins := depends_on_other_plugins p;
                 plugins := map (fun l => l + n) (plugins p);
                 name_not_known_in_advance := name_not_known_in_advance p;
                 get_value := get_value p |}
  | ODict d => ODict (shift_dict n d)
  | OStore d => OStore (shift_dict n d)
  | ORequest r =>
      ORequest {| method := method r; function := function r;
                  url := shift_value n (url r); logger := logger r;
                  headers := headers r + n; cookies := cookies r + n;
                  data := data r + n; kwargs := kwargs r |}
  end.

Definition deepcopy (h : heap) (l : loc) : heap * loc :=
  (h ++ map (shift_obj (length h)) h, l + length h).

(** [Template.__init__(method, url, cookies, headers, data)] *)
Definition Template_init (h : heap) (m : string) (u : value)
    (cookies' headers' data' : kwarg) : result (heap * loc) :=
  Request_init h "requests.request" u m
    [("cookies", cookies'); ("headers", headers'); ("data", data')].

(** The truth value of an argument that is a string, [None] or an
    object: an object is true unless it is an empty dictionary. *)
Definition value_truthy (h : heap) (v : value) : bool :=
  match v with
  | VNone => false
  | VStr s => negb (String.eqb s EmptyString)
  | VRef l => match h !! l with
              | Some (ODict []) => false
              | _ => true
              end
  end.

Definition kwarg_truthy (a : kwarg) : bool :=
  match a with
  | KwNone => false
  | KwPlugins l => bool_decide (l <> [])
  | KwDict d => bool_decide (d <> [])
  end.

(** [store.merge(other)] on the store object at [l]. *)
Definition merge_into (h : heap) (l : loc) (other : pydict) : result heap :=
  d ← to_dict h l;
  Ok (<[l := OStore (merge d other)]> h).

(** [d.update(other)] on the dictionary object at [l]. *)
Definition update_into (h : heap) (l : loc) (other : kwarg) : result heap :=
  d ← get_dict h l;
  match other with
  | KwDict o => Ok (set_dict h l (dict_update d o))
  | _ => Raise TypeError
  end.

(** [Template.__call__(self, method, url, cookies, headers, data)]; an
    argument left out is [None]. *)
Definition Template_call (h : heap) (self : loc) (method' : option string)
    (url' : value) (cookies' headers' data' : kwarg) : result (heap * loc) :=
  let '(h, template) := deepcopy h self in
  r ← get_request h template;
  let r := if truthy method' then set_method r (str_of method') else r in
  let r := if value_truthy h url' then set_url r url' else r in
  let h := <[template := ORequest r]> h in
  h ← (if kwarg_truthy cookies'
       then other ← CookieStore h cookies'; merge_into h (cookies r) other
       else Ok h);
  h ← (if kwarg_truthy headers'
       then other ← HeaderStore h headers'; merge_into h (headers r) other
       else Ok h);
  h ← (if kwarg_truthy data'
       then update_into h (data r) data'
       else Ok h);
  Ok (h, template).


(** ** Predicates on stores, used by the statements below *)

(** Every entry of the store is a plugin (a [Cookie] or a [Header]), as the
    constructors' types have it. *)
Definition all_plugins (h : heap) (d : pydict) : bool :=
  forallb (fun e => bool_decide (is_Some (get_plugin h e.2))) d.

(** No entry of the header store is filed under [user-agent], and none has
    a name that is [user-agent] up to the case of its letters. *)
Definition no_user_agent (h : heap) (d : pydict) : bool :=
  forallb (fun e =>
             bool_decide (e.1 <> KStr "user-agent")
             && match get_plugin h e.2 with
                | Some p => bool_decide (lower (name p) <> "user-agent")
                | None => true
                end) d.

(** A mapping all of whose keys and values are literal strings. *)
Definition is_literal_dict (d : pydict) : bool :=
  forallb (fun e => match e with
                    | (KStr _, VStr _) => true
                    | _ => false
                    end) d.

(** Every body group of [raw] is a store with literal strings only. *)
Definition literal_groups (h : heap) (raw : pydict) : bool :=
  forallb (fun e => match e.2 with
                    | VRef s => match h !! s with
                                | Some (OStore d) => is_literal_dict d
                                | _ => false
                                end
                    | _ => false
                    end) raw.

(** A cookie or header that stands for a literal: it is filed under its own
    name, the name is known in advance, and it resolves to a string that is
    not empty. *)
Definition fixed_entry (h : heap) (ud : userdata) (e : key * value) : bool :=
  match get_plugin h e.2 with
  | Some p => bool_decide (e.1 = KStr (name p))
              && negb (name_not_known_in_advance p)
              && truthy (get_value p ud)
  | None => false
  end.

Definition fixed_store (h : heap) (ud : userdata) (d : pydict) : bool :=
  forallb (fixed_entry h ud) d.

(** The literal a cookie or header stands for. *)
Definition literal_of (h : heap) (ud : userdata) (v : value) : option value :=
  p ← get_plugin h v; Some (VStr (str_of (get_value p ud))).

(** [process_data] called [n] more times after a first call, each call on
    the store the one before left; the result is the last call's. *)
Fixpoint process_data_again (colors input : string -> string) (n : nat)
    (h : heap) (raw_data : loc) (ud : userdata) : result (heap * pydict) :=
  match n with
  | 0 => process_data colors input h raw_data ud
  | S n' => '(h', _) ← process_data colors input h raw_data ud;
            process_data_again colors input n' h' raw_data ud
  end.

(** The mapping of the body group [g] of the request at [self]. *)
Definition body_group (h : heap) (self : loc) (g : string) : result pydict :=
  r ← get_request h self;
  d ← get_dict h (data r);
  s ← dict_getitem d (KStr g);
  match s with
  | VRef l => to_dict h l
  | _ => Raise AttributeError
  end.

(** ** Sharing *)

(** The objects an object refers to. *)
Definition refs_key (k : key) : list loc :=
  match k with
  | KObj l => [l]
  | KStr _ => []
  end.

Definition refs_value (v : value) : list loc :=
  match v with
  | VRef l => [l]
  | _ => []
  end.

Definition refs_dict (d : pydict) : list loc :=
  flat_map (fun e => refs_key e.1 ++ refs_value e.2) d.

Definition refs_obj (o : obj) : list loc :=
  match o with
  | OPlugin p => plugins p
  | ODict d => refs_dict d
  | OStore d => refs_dict d
  | ORequest r => refs_value (url r) ++ [headers r; cookies r; data r]
  end.

(** [reach h root l]: the object [l] can be reached from [root] by
    following references; a write to [l] is a change of the state of
    [root]. *)
Inductive reach (h : heap) (root : loc) : loc -> Prop :=
| reach_root : reach h root root
| reach_ref l o l' :
    reach h root l -> h !! l = Some o -> l' ∈ refs_obj o -> reach h root l'.

(** Every reference in the store is to an object of the store. *)
Definition closed (h : heap) : bool :=
  forallb (fun o => forallb (fun l => Nat.ltb l (length h)) (refs_obj o)) h.

Definition refs_kwarg (a : kwarg) : list loc :=
  match a with
  | KwPlugins l => l
  | KwDict d => refs_dict d
  | KwNone => []
  end.

(** The objects handed to [Template.__call__] as overrides. *)
Definition override_refs (url' : value) (cookies' headers' data' : kwarg) : list loc :=
  refs_value url' ++ refs_kwarg cookies' ++ refs_kwarg headers' ++ refs_kwarg data'.

(** The references are to objects that are in the store. *)
Definition existing (h : heap) (ls : list loc) : bool :=
  forallb (fun l => Nat.ltb l (length h)) ls.

(** What [Template.__call__] keeps true of the store while it works:
    the objects that were there before the call ([n] of them) are as they
    were, and the objects added since refer to one another and to the
    overrides ([roots]) only. *)
Definition call_invariant (n : nat) (roots : list loc) (h0 hx : heap) : Prop :=
  (forall l, l < n -> hx !! l = h0 !! l)
  /\ (forall l o l', n <= l -> hx !! l = Some o -> l' ∈ refs_obj o ->
        n <= l' \/ l' ∈ roots).

(** [traverse_dict] writes to dictionaries only: plugins and stores are
    after it what they were before. *)
Definition keeps_other_objects (h h' : heap) : Prop :=
  forall l o, h !! l = Some o -> (forall d, o <> ODict d) -> h' !! l = Some o.

(** ** Slots and how they are resolved *)

(** What a slot resolves to: a plugin gives its value, or the operator's
    reply when that is empty, and nothing when the reply is empty too;
    whatever is not a plugin stays as it is. *)
Definition resolve_slot (colors input : string -> string) (element : string)
    (h : heap) (ud : userdata) (v : value) : option value :=
  match get_plugin h v with
  | Some p =>
      let r := value_or_prompt colors input element (name p) (get_value p ud) in
      if truthy r then Some (VStr (str_of r)) else None
  | None => Some v
  end.

(** A cookie filed under its own name, the name known in advance. *)
Definition named_entry (h : heap) (e : key * value) : bool :=
  match get_plugin h e.2 with
  | Some p => bool_decide (e.1 = KStr (name p))
              && negb (name_not_known_in_advance p)
  | None => false
  end.

Definition named_store (h : heap) (d : pydict) : bool :=
  forallb (named_entry h) d.



(** ** Body groups without nested dictionaries *)

(** A value that is not a reference, or is a plugin. *)
Definition flat_value (h : heap) (v : value) : bool :=
  match v with
  | VRef _ => bool_decide (is_Some (get_plugin h v))
  | _ => true
  end.

(** A key that is a string or a plugin. *)
Definition flat_key (h : heap) (k : key) : bool :=
  match k with
  | KStr _ => true
  | KObj _ => bool_decide (is_Some (get_key_plugin h k))
  end.

(** A mapping with unique keys and without nested dictionaries. *)
Definition flat_dict (h : heap) (d : pydict) : bool :=
  forallb (fun e => flat_key h e.1 && flat_value h e.2) d
  && bool_decide (NoDup d.*1).

Definition string_keys (d : pydict) : bool :=
  forallb (fun e => match e.1 with KStr _ => true | KObj _ => false end) d.

(** Every body group of [raw] is a store without nested dictionaries. *)
Definition flat_groups (h : heap) (raw : pydict) : bool :=
  forallb (fun e => match e.2 with
                    | VRef s => match h !! s with
                                | Some (OStore d) => flat_dict h d
                                | _ => false
                                end
                    | _ => false
                    end) raw.

(** The same, and every key of every group is a string. *)
Definition string_keyed_groups (h : heap) (raw : pydict) : bool :=
  forallb (fun e => match e.2 with
                    | VRef s => match h !! s with
                                | Some (OStore d) => flat_dict h d && string_keys d
                                | _ => false
                                end
                    | _ => false
                    end) raw.

(** A mapping in which nothing is left to resolve: every key is a string
    and no value is a reference. *)
Definition plain_dict (d : pydict) : bool :=
  forallb (fun e => match e with
                    | (KStr _, VRef _) => false
                    | (KStr _, _) => true
                    | (KObj _, _) => false
                    end) d.

(** The turn of [traverse_dict] as a function of the mapping alone, for a
    dictionary without nested dictionaries: the plugins are looked up in
    [h], and the only object written to is the dictionary itself. *)
Definition flat_turn (colors input : string -> string) (h : heap) (ud : userdata)
    (d : pydict) (k : key) : result pydict :=
  value ← dict_getitem d k;
  d ← match get_plugin h value with
      | Some p =>
          let new_value :=
            value_or_prompt colors input "Value" (name p) (get_value p ud) in
          if negb (truthy new_value)
          then dict_del d k
          else Ok (dict_set d k (VStr (str_of new_value)))
      | None => Ok d
      end;
  match get_key_plugin h k with
  | Some p =>
      '(new_value, d) ← dict_pop d k;
      let new_key := value_or_prompt colors input "Key" (name p) (get_value p ud) in
      if negb (truthy new_key)
      then dict_del d k
      else Ok (dict_set d (KStr (str_of new_key)) new_value)
  | None => Ok d
  end.

(** ** Inputs without children *)

(** A plugin that does not depend on other plugins. *)
Definition childless_value (h : heap) (v : value) : bool :=
  match get_plugin h v with
  | Some p => negb (depends_on_other_plugins p)
  | None => false
  end.

(** A store of plugins none of which depends on others. *)
Definition childless_store (h : heap) (d : pydict) : bool :=
  forallb (fun e => childless_value h e.2) d.

(** An url that is a string, or a plugin that does not depend on others. *)
Definition childless_url (h : heap) (v : value) : bool :=
  match get_plugin h v with
  | Some p => negb (depends_on_other_plugins p)
  | None => true
  end.

(** No key and no value of the mapping is a plugin. *)
Definition no_plugin_items (h : heap) (d : pydict) : bool :=
  forallb (fun e => match get_key_plugin h e.1, get_plugin h e.2 with
                    | None, None => true
                    | _, _ => false
                    end) d.

(** What [list_inputs] files under [k] for a request whose inputs have no
    children: the header of that key, else the cookie, else the url when
    [k] is its name. *)
Definition input_of (h : heap) (u : value) (cs hs : pydict) (k : key)
    : option value :=
  match dict_get hs k with
  | Some v => Some v
  | None =>
      match dict_get cs k with
      | Some v => Some v
      | None =>
          match get_plugin h u with
          | Some p => if decide (k = KStr (name p)) then Some u else None
          | None => None
          end
      end
  end.

(** ** What [send] leaves of its request *)

(** The url [send] passes on: the value of a plugin, as it is ([None] when
    there is none), and any other url unchanged. *)
Definition sent_url (h : heap) (ud : userdata) (u : value) : value :=
  match get_plugin h u with
  | Some p => resolved_url (get_value p ud)
  | None => u
  end.

(** ** Concrete scenarios *)

Module Scenario.

(** A terminal without colours whose operator always just hits enter. *)
Definition no_colors (c : string) : string := EmptyString.
Definition enter_only (prompt : string) : string := EmptyString.
Definition plain_urlencode (d : pydict) : string := "encoded".

Definition pconfig : Config :=
  {| verify := true; use_proxy := false; proxy := EmptyString;
     user_agent := "raider"; active_user := []; config_logger := "raider" |}.

(** A plugin with a fixed resolution and a name known in advance. *)
Definition fixed (nm : string) (v : option string) : Plugin :=
  {| name := nm; depends_on_other_plugins := false; plugins := [];
     name_not_known_in_advance := false; get_value := fun _ => v |}.

(** A plugin whose name is only known once it is resolved. *)
Definition late_named (nm : string) (v : option string) : Plugin :=
  {| name := nm; depends_on_other_plugins := false; plugins := [];
     name_not_known_in_advance := true; get_value := fun _ => v |}.

(** A cookie store with one cookie [sid] of a name not known in advance
    that resolves to nothing. *)
Definition late_cookie_heap : heap :=
  [OPlugin (late_named "sid" None); OStore [(KStr "sid", VRef 0)]].

(** A header store with a header [accept] that resolves to a text. *)
Definition accept_heap : heap :=
  [OPlugin (fixed "accept" (Some "text/html")); OStore [(KStr "accept", VRef 0)]].

(** A header store whose only header is named [user-agent]. *)
Definition own_agent_heap : heap :=
  [OPlugin (fixed "user-agent" (Some "custom")); OStore [(KStr "user-agent", VRef 0)]].

(** A header store and a cookie store without entries, and a request body
    with the one group [data] that holds literal strings only. *)
Definition literal_heap : heap :=
  [OStore []; OStore [(KStr "user", VStr "alice"); (KStr "note", VStr EmptyString)];
   ODict [(KStr "data", VRef 1)];
   OPlugin (fixed "sid" (Some "abc")); OStore [(KStr "sid", VRef 3)]].

(** A header store with one header [x-token] of a name not known in
    advance that resolves to nothing. *)
Definition late_header_heap : heap :=
  [OPlugin (late_named "x-token" None); OStore [(KStr "x-token", VRef 0)]].

(** A body whose group [data] is [{K: "v"}], the key [K] a plugin that
    resolves to nothing. *)
Definition empty_key_heap : heap :=
  [OPlugin (fixed "k" None); OStore [(KObj 0, VStr "v")];
   ODict [(KStr "data", VRef 1)]].

(** A body whose group [data] is [{K: V}], key and value both plugins: the
    key resolves to nothing and the value to [secret]. *)
Definition plugin_entry_heap : heap :=
  [OPlugin (fixed "k" None); OPlugin (fixed "v" (Some "secret"));
   OStore [(KObj 0, VRef 1)]; ODict [(KStr "data", VRef 2)]].

(** The same body with the key resolving to [token] and the value to
    nothing. *)
Definition dropped_value_heap : heap :=
  [OPlugin (fixed "k" (Some "token")); OPlugin (fixed "v" None);
   OStore [(KObj 0, VRef 1)]; ODict [(KStr "data", VRef 2)]].

(** A store with the plugin [password] alone, and
    [Request.put("http://x", data={"password": password})] built in it. *)
Definition password_heap : heap := [OPlugin (fixed "password" (Some "hunter2"))].

Definition password_request : result (heap * loc) :=
  Request_put password_heap (VStr "http://x")
    [("data", KwDict [(KStr "password", VRef 0)])].

(** [Request.put("http://x", data={"a": "b"})]: one body group, and a
    method that is not GET. *)
Definition single_group_request : result (heap * loc) :=
  Request_put [] (VStr "http://x") [("data", KwDict [(KStr "a", VStr "b")])].

Definition single_group_heap : heap :=
  Eval vm_compute in match single_group_request with Ok (h, _) => h | Raise _ => [] end.

Definition single_group : Request :=
  {| method := "PUT"; function := "requests.put"; url := VStr "http://x";
     logger := None; headers := 0; cookies := 1; data := 3; kwargs := ["data"] |}.

(** A store with the plugin [inner] and the dictionary [{"inner": inner}],
    and [Request.put("http://x", json={"outer": {"inner": inner}})] built
    in it. *)
Definition nested_heap : heap :=
  [OPlugin (fixed "inner" (Some "v")); ODict [(KStr "inner", VRef 0)]].

Definition nested_request : result (heap * loc) :=
  Request_put nested_heap (VStr "http://x")
    [("json", KwDict [(KStr "outer", VRef 1)])].

(** A store with the plugin [token] alone, a template built in it, and two
    instances of the template, each called with [url=token]. *)
Definition token_heap : heap := [OPlugin (fixed "token" (Some "t"))].

Definition token_template : result (heap * loc) :=
  Template_init token_heap "GET" (VStr "http://x") KwNone KwNone KwNone.

Definition template_heap : heap :=
  Eval vm_compute in match token_template with Ok (h, _) => h | Raise _ => [] end.

Definition two_instances : result (heap * loc * loc) :=
  '(h, t) ← token_template;
  '(h, i1) ← Template_call h t None (VRef 0) KwNone KwNone KwNone;
  '(h, i2) ← Template_call h t None (VRef 0) KwNone KwNone KwNone;
  Ok (h, i1, i2).

(** A template with the cookie [a], in a store that also has a cookie [b]
    and a second cookie named [a]. *)
Definition cookie_heap : heap :=
  [OPlugin (fixed "a" (Some "1")); OPlugin (fixed "b" (Some "2"));
   OPlugin (fixed "a" (Some "3"))].

Definition cookie_template_heap : heap :=
  Eval vm_compute in
    match Template_init cookie_heap "GET" (VStr "http://x") (KwPlugins [0]) KwNone KwNone with
    | Ok (h, _) => h
    | Raise _ => []
    end.

Definition cookie_template : Request :=
  {| method := "GET"; function := "requests.request"; url := VStr "http://x";
     logger := None; headers := 3; cookies := 4; data := 6;
     kwargs := ["cookies"; "headers"; "data"] |}.

(** A plugin that depends on others. *)
Definition composite (nm : string) (children : list loc) : Plugin :=
  {| name := nm; depends_on_other_plugins := true; plugins := children;
     name_not_known_in_advance := false; get_value := fun _ => Some "x" |}.

(** [Request.get(u, cookies=[c], headers=[b, a], json={"x": "y"})]: the
    url [u] and the header [a] resolve to nothing, the cookie [c] depends on
    [a] and [b]. *)
Definition mixed_heap : heap :=
  [OPlugin (fixed "a" None); OPlugin (fixed "b" (Some "2"));
   OPlugin (composite "c" [0; 1]); OPlugin (fixed "u" None)].

Definition mixed_request : result (heap * loc) :=
  Request_get mixed_heap (VRef 3)
    [("cookies", KwPlugins [2]); ("headers", KwPlugins [1; 0]);
     ("json", KwDict [(KStr "x", VStr "y")])].

End Scenario.

(** ** More scenarios *)

Module More.

(** A store of three cookies (or headers): [a] resolves to nothing, [b]
    to [2], and [user-agent] to [mine]. *)
Definition slots_heap : heap :=
  [OPlugin (Scenario.fixed "a" None); OPlugin (Scenario.fixed "b" (Some "2"));
   OPlugin (Scenario.fixed "user-agent" (Some "mine"));
   OStore [(KStr "a", VRef 0); (KStr "b", VRef 1)];
   OStore [(KStr "a", VRef 0); (KStr "user-agent", VRef 2)]].

(** Two request bodies.  The group [data] of the first has string keys:
    [user] resolves to [alice], [pass] to nothing, [n] is the literal [1].
    The group [json] of the second has the key [K], a plugin that resolves
    to [token], and the literal entry [x]. *)
Definition body_heap : heap :=
  [OPlugin (Scenario.fixed "user" (Some "alice")); OPlugin (Scenario.fixed "pass" None);
   OPlugin (Scenario.fixed "K" (Some "token"));
   OStore [(KStr "user", VRef 0); (KStr "pass", VRef 1); (KStr "n", VStr "1")];
   ODict [(KStr "data", VRef 3)];
   OStore [(KObj 2, VRef 0); (KStr "x", VStr "y")];
   ODict [(KStr "json", VRef 5)]].

(** [Request.get(u, cookies=[a, b], headers=[a'])], the header [a'] named
    [a] like the first cookie, the url [u] a plugin. *)
Definition shadow_heap : heap :=
  Eval vm_compute in
    match Request_get (Scenario.cookie_heap ++ [OPlugin (Scenario.fixed "u" None)]) (VRef 3)
            [("cookies", KwPlugins [0; 1]); ("headers", KwPlugins [2])] with
    | Ok (h, _) => h
    | Raise _ => []
    end.

Definition shadow_request : Request :=
  {| method := "GET"; function := "requests.get"; url := VRef 3;
     logger := None; headers := 4; cookies := 5; data := 6;
     kwargs := ["cookies"; "headers"] |}.

(** The store of [Scenario.mixed_request] and the request in it. *)
Definition mixed_built : heap :=
  Eval vm_compute in
    match Scenario.mixed_request with Ok (h, _) => h | Raise _ => [] end.

Definition mixed : Request :=
  {| method := "GET"; function := "requests.get"; url := VRef 3;
     logger := None; headers := 4; cookies := 5; data := 7;
     kwargs := ["cookies"; "headers"; "json"] |}.

(** A body whose group [json] holds a dictionary that holds itself. *)
Definition cyclic_heap : heap :=
  [ODict [(KStr "self", VRef 0)]; OStore [(KStr "a", VRef 0)];
   ODict [(KStr "json", VRef 1)]].

(** A plugin whose value is the first value of the user data, and
    [Request.get(u)] with such a plugin for its url. *)
Definition first_value (nm : string) : Plugin :=
  {| name := nm; depends_on_other_plugins := false; plugins := [];
     name_not_known_in_advance := false;
     get_value := fun ud => match ud with
                            | (_, v) :: _ => Some v
                            | [] => None
                            end |}.

Definition per_user_heap : heap :=
  Eval vm_compute in
    match Request_get [OPlugin (first_value "u")] (VRef 0) [] with
    | Ok (h, _) => h
    | Raise _ => []
    end.

Definition per_user : Request :=
  {| method := "GET"; function := "requests.get"; url := VRef 0;
     logger := None; headers := 1; cookies := 2; data := 3; kwargs := [] |}.

Definition pconfig_of (host : string) : Config :=
  {| verify := true; use_proxy := false; proxy := EmptyString;
     user_agent := "raider"; active_user := [("host", host)];
     config_logger := "raider" |}.

End More.

(** * Properties *)

(** ** Dictionaries *)

Section Dict.

Implicit Types (d : pydict) (k : key) (v : value).

Lemma dict_get_set_eq d k v : dict_get (dict_set d k v) k = Some v.
Proof.
  induction d as [|[k' v'] d IH]; simpl.
  - by rewrite decide_True.
  - destruct (decide (k = k')) as [->|Hne]; simpl.
    + by rewrite decide_True.
    + by rewrite decide_False.
Qed.

Lemma dict_get_set_ne d k k' v :
  k <> k' -> dict_get (dict_set d k v) k' = dict_get d k'.
Proof.
  intros Hne. induction d as [|[k0 v0] d IH]; simpl.
  - by rewrite decide_False.
  - destruct (decide (k = k0)) as [->|Hk]; simpl.
    + by rewrite !decide_False.
    + by rewrite IH.
Qed.

Lemma dict_get_set d k k' v :
  dict_get (dict_set d k v) k' = if decide (k = k') then Some v else dict_get d k'.
Proof.
  destruct (decide (k = k')) as [->|Hne].
  - apply dict_get_set_eq.
  - by apply dict_get_set_ne.
Qed.

Lemma dict_get_remove_eq d k : dict_get (dict_remove d k) k = None.
Proof.
  unfold dict_remove. induction d as [|[k' v'] d IH]; [done|].
  rewrite filter_cons. simpl. destruct (decide (k <> k')) as [Hne|Heq]; simpl.
  - by rewrite decide_False.
  - done.
Qed.

Lemma dict_get_remove_ne d k k' :
  k <> k' -> dict_get (dict_remove d k) k' = dict_get d k'.
Proof.
  intros Hne. unfold dict_remove. induction d as [|[k0 v0] d IH]; [done|].
  rewrite filter_cons. simpl. destruct (decide (k <> k0)) as [Hk|Hk]; simpl.
  - by rewrite IH.
  - apply dec_stable in Hk. subst k0. by rewrite decide_False.
Qed.

(** A key the dictionary lists has a binding, and a binding is an entry. *)
Lemma dict_get_is_Some d k : k ∈ d.*1 -> is_Some (dict_get d k).
Proof.
  induction d as [|[k' v'] d IH]; simpl.
  - by intros ?%elem_of_nil.
  - intros [->|Hin]%elem_of_cons.
    + rewrite decide_True; eauto.
    + destruct (decide (k = k')); eauto.
Qed.

Lemma dict_get_None d k : k ∉ d.*1 -> dict_get d k = None.
Proof.
  induction d as [|[k' v'] d IH]; simpl; [done|].
  intros Hnin. apply not_elem_of_cons in Hnin as [Hne Hnin].
  rewrite decide_False; auto.
Qed.

Lemma dict_get_elem_of d k v : dict_get d k = Some v -> (k, v) ∈ d.
Proof.
  induction d as [|[k' v'] d IH]; simpl; [done|].
  destruct (decide (k = k')) as [->|Hne].
  - intros [= ->]. apply elem_of_cons; auto.
  - intros H. apply elem_of_cons; auto.
Qed.

(** [d.update(other)], read through its lookups: the entries of [other]
    take precedence (the last one among those that share a key). *)
Lemma dict_get_update d other k :
  dict_get (dict_update d other) k =
  match dict_get (reverse other) k with
  | Some v => Some v
  | None => dict_get d k
  end.
Proof.
  unfold dict_update. revert d.
  induction other as [|[k0 v0] other IH] using rev_ind; intros d.
  - done.
  - rewrite foldl_app, reverse_snoc. simpl.
    rewrite dict_get_set. destruct (decide (k = k0)) as [->|Hne].
    + by rewrite decide_True.
    + by rewrite decide_False, IH.
Qed.

Lemma dict_del_Ok d k d' :
  dict_del d k = Ok d' -> d' = dict_remove d k.
Proof. unfold dict_del. destruct (dict_get d k); naive_solver. Qed.

Lemma dict_del_missing d k : dict_get d k = None -> dict_del d k = Raise KeyError.
Proof. unfold dict_del. by intros ->. Qed.

End Dict.

(** ** Loops *)

Lemma bind_Ok {A B} (m : result A) (f : A -> result B) b :
  m ≫= f = Ok b -> exists a, m = Ok a /\ f a = Ok b.
Proof. destruct m; simpl; [eauto|done]. Qed.

(** A loop keeps what every turn keeps. *)
Lemma for_each_invariant {A S} (body : S -> A -> result S) (I : S -> Prop) l s s' :
  (forall s x s', x ∈ l -> I s -> body s x = Ok s' -> I s') ->
  I s -> for_each body l s = Ok s' -> I s'.
Proof.
  revert s. induction l as [|x l IH]; intros s Hbody Hs; simpl.
  - by intros [= <-].
  - intros (s1 & H1 & H2)%bind_Ok.
    eapply IH; [|by eapply Hbody; [apply elem_of_cons; left|..]|done].
    intros ???? **. eapply Hbody; eauto. apply elem_of_cons; auto.
Qed.

(** ** Cookies and headers *)

Lemma for_each_raises {A S} (body : S -> A -> result S) l s x e0 :
  x ∈ l ->
  (forall s, body s x = Raise e0) ->
  (forall s y e, y ∈ l -> body s y = Raise e -> e = e0) ->
  for_each body l s = Raise e0.
Proof.
  revert s. induction l as [|y l IH]; intros s Hin Hx Hother.
  - by apply elem_of_nil in Hin.
  - simpl. destruct (body s y) as [s1|e] eqn:Hy; simpl.
    + apply elem_of_cons in Hin as [->|Hin]; [by rewrite Hx in Hy|].
      apply IH; auto. intros ??? ?. apply Hother. apply elem_of_cons; auto.
    + f_equal. eapply Hother; [|done]. apply elem_of_cons; auto.
Qed.

Lemma dict_del_raise d k e : dict_del d k = Raise e -> e = KeyError.
Proof. unfold dict_del. destruct (dict_get d k); naive_solver. Qed.

Lemma all_plugins_elem h d k v :
  all_plugins h d = true -> (k, v) ∈ d -> exists p, get_plugin h v = Some p.
Proof.
  unfold all_plugins. rewrite forallb_forall. intros Hall Hin.
  apply list_elem_of_In, Hall, bool_decide_eq_true in Hin as [p Hp]. eauto.
Qed.

Lemma lower_user_agent nm : lower nm <> "user-agent" -> nm <> "user-agent".
Proof. intros Hl ->. by apply Hl. Qed.

Section CookiesHeaders.

Variable colors : string -> string.
Variable input : string -> string.

(** The turn of [process_cookies] for a cookie of a name not known in
    advance, with no value from the plugin or the operator, pops its key
    twice. *)
Lemma process_cookies_body_pops_twice h d ud c k l p :
  dict_get d k = Some (VRef l) ->
  h !! l = Some (OPlugin p) ->
  name_not_known_in_advance p = true ->
  truthy (value_or_prompt colors input "Cookie" (name p) (get_value p ud)) = false ->
  process_cookies_body colors input h d ud c k = Raise KeyError.
Proof.
  intros Hk Hl Hflag Hempty. unfold process_cookies_body, dict_getitem, as_plugin.
  rewrite Hk. simpl. rewrite Hl. simpl. rewrite Hflag, Hempty. simpl.
  destruct (dict_del c k) as [c'|e] eqn:Hdel; simpl.
  - apply dict_del_Ok in Hdel as ->. apply dict_del_missing, dict_get_remove_eq.
  - by apply dict_del_raise in Hdel as ->.
Qed.

(** Over a store of plugins the only exception of a turn is [KeyError]. *)
Lemma process_cookies_body_raise h d ud c k e :
  all_plugins h d = true -> k ∈ d.*1 ->
  process_cookies_body colors input h d ud c k = Raise e -> e = KeyError.
Proof.
  intros Hall Hin. unfold process_cookies_body, dict_getitem, as_plugin.
  destruct (dict_get_is_Some _ _ Hin) as [v Hv]. rewrite Hv. simpl.
  destruct (all_plugins_elem _ _ _ _ Hall (dict_get_elem_of _ _ _ Hv)) as [p ->].
  simpl. destruct (name_not_known_in_advance p); simpl.
  - destruct (dict_del c k) as [c'|e'] eqn:Hdel; simpl.
    + destruct (negb _); [apply dict_del_raise|done].
    + intros [= <-]. by apply dict_del_raise in Hdel.
  - destruct (negb _); [apply dict_del_raise|done].
Qed.

(** C10.  In every cookie store (of cookies) that has a cookie whose name
    is not known in advance and for which neither the plugin nor the
    operator gives a value, [process_cookies] raises [KeyError] and returns
    no mapping: the key is popped for the unknown name and popped again for
    the empty value. *)
Theorem process_cookies_late_name_KeyError h raw_cookies ud d k l p :
  h !! raw_cookies = Some (OStore d) ->
  all_plugins h d = true ->
  dict_get d k = Some (VRef l) ->
  h !! l = Some (OPlugin p) ->
  name_not_known_in_advance p = true ->
  truthy (value_or_prompt colors input "Cookie" (name p) (get_value p ud)) = false ->
  process_cookies colors input h raw_cookies ud = Raise KeyError.
Proof.
  intros Hraw Hall Hk Hl Hflag Hempty. unfold process_cookies, to_dict.
  rewrite Hraw. simpl. apply for_each_raises with (x := k).
  - apply list_elem_of_fmap. exists (k, VRef l). split; [done|].
    by apply dict_get_elem_of.
  - intros c. by eapply process_cookies_body_pops_twice.
  - intros c y e Hy. by apply process_cookies_body_raise.
Qed.

(** A turn of [process_headers] leaves an entry alone that is neither
    under the turn's key nor under its header's name. *)
Lemma process_headers_body_other h d ud c k c' k0 v p :
  dict_get d k = Some v -> get_plugin h v = Some p ->
  k <> k0 -> KStr (lower (name p)) <> k0 -> KStr (name p) <> k0 ->
  process_headers_body colors input h d ud c k = Ok c' ->
  dict_get c' k0 = dict_get c k0.
Proof.
  intros Hk Hp H1 H2 H3. unfold process_headers_body, dict_getitem, as_plugin.
  rewrite Hk. simpl. rewrite Hp. simpl.
  intros (c1 & Hc1 & Hrest)%bind_Ok.
  assert (dict_get c1 k0 = dict_get c k0) as <-.
  { destruct (name_not_known_in_advance p).
    - apply dict_del_Ok in Hc1 as ->. by apply dict_get_remove_ne.
    - by injection Hc1 as ->. }
  destruct (negb _).
  - apply dict_del_Ok in Hrest as ->. by apply dict_get_remove_ne.
  - injection Hrest as <-. by apply dict_get_set_ne.
Qed.

(** C4 (amended).  When no header of the store is filed under
    [user-agent] or named [user-agent] (in any case of letters), every
    mapping [process_headers] returns has the run configuration's
    [user_agent] under [user-agent]. *)
Theorem process_headers_injects_user_agent h raw_headers ud pconfig d out :
  h !! raw_headers = Some (OStore d) ->
  no_user_agent h d = true ->
  process_headers colors input h raw_headers ud pconfig = Ok out ->
  dict_get out (KStr "user-agent") = Some (VStr (user_agent pconfig)).
Proof.
  intros Hraw Hnone. unfold process_headers, to_dict. rewrite Hraw. simpl.
  apply (for_each_invariant _
    (fun c => dict_get c (KStr "user-agent") = Some (VStr (user_agent pconfig)))).
  - intros c k c' Hin Hc Hbody.
    destruct (dict_get_is_Some _ _ Hin) as [v Hv].
    pose proof (dict_get_elem_of _ _ _ Hv) as Hel.
    unfold no_user_agent in Hnone. rewrite forallb_forall in Hnone.
    apply list_elem_of_In, Hnone, andb_prop in Hel as [Hkey Hname].
    apply bool_decide_eq_true in Hkey. simpl in Hkey, Hname.
    destruct (get_plugin h v) as [p|] eqn:Hp.
    + apply bool_decide_eq_true in Hname. rewrite <- Hc.
      eapply process_headers_body_other; eauto.
      * congruence.
      * intros [= Hn]. by apply lower_user_agent in Hname.
    + unfold process_headers_body, dict_getitem, as_plugin in Hbody.
      rewrite Hv in Hbody. simpl in Hbody. by rewrite Hp in Hbody.
  - apply dict_get_set_eq.
Qed.

End CookiesHeaders.

(** C10, on the cookie [sid] of a name not known in advance. *)
Lemma process_cookies_late_name_KeyError_witness :
  process_cookies Scenario.no_colors Scenario.enter_only
    Scenario.late_cookie_heap 1 [] = Raise KeyError.
Proof.
  apply (process_cookies_late_name_KeyError Scenario.no_colors Scenario.enter_only
           Scenario.late_cookie_heap 1 [] [(KStr "sid", VRef 0)] (KStr "sid") 0
           (Scenario.late_named "sid" None)); reflexivity.
Defined.

(** C4: a header store with its own [user-agent] header sends that
    header's value, not the run configuration's. *)
Lemma process_headers_own_user_agent_wins :
  process_headers Scenario.no_colors Scenario.enter_only
    Scenario.own_agent_heap 1 [] Scenario.pconfig
  = Ok [(KStr "user-agent", VStr "custom")]
  /\ user_agent Scenario.pconfig <> "custom".
Proof. split; [reflexivity|discriminate]. Qed.

(** C4 (amended), on a store with the header [accept]. *)
Lemma process_headers_injects_user_agent_witness :
  dict_get [(KStr "accept", VStr "text/html"); (KStr "user-agent", VStr "raider")]
    (KStr "user-agent") = Some (VStr (user_agent Scenario.pconfig)).
Proof.
  apply (process_headers_injects_user_agent Scenario.no_colors Scenario.enter_only
           Scenario.accept_heap 1 [] Scenario.pconfig [(KStr "accept", VRef 0)]);
    reflexivity.
Defined.

(** ** Containers of literals *)

Lemma for_each_unchanged {A S} (body : S -> A -> result S) l s :
  (forall x, x ∈ l -> body s x = Ok s) -> for_each body l s = Ok s.
Proof.
  induction l as [|x l IH]; intros Hbody; simpl; [done|].
  rewrite Hbody by (apply elem_of_cons; auto). simpl.
  apply IH. intros y Hy. apply Hbody. apply elem_of_cons; auto.
Qed.

Lemma is_literal_dict_elem d k v :
  is_literal_dict d = true -> (k, v) ∈ d ->
  (exists s, k = KStr s) /\ (exists s, v = VStr s).
Proof.
  unfold is_literal_dict. rewrite forallb_forall. intros Hall Hin.
  apply list_elem_of_In, Hall in Hin. destruct k, v; try done. eauto.
Qed.

Lemma dict_get_app (d1 d2 : pydict) k :
  dict_get (d1 ++ d2) k =
  match dict_get d1 k with
  | Some v => Some v
  | None => dict_get d2 k
  end.
Proof.
  induction d1 as [|[k' v'] d1 IH]; simpl; [done|].
  destruct (decide (k = k')); auto.
Qed.

(** In a dictionary, whose keys are unique, it does not matter from which
    end a key is looked for. *)
Lemma dict_get_reverse (d : pydict) k :
  NoDup d.*1 -> dict_get (reverse d) k = dict_get d k.
Proof.
  induction d as [|[k' v'] d IH]; [done|].
  rewrite fmap_cons, NoDup_cons. intros [Hnin Hnd].
  rewrite reverse_cons, dict_get_app, IH by done. simpl.
  destruct (decide (k = k')) as [->|Hne].
  - by rewrite dict_get_None.
  - by destruct (dict_get d k).
Qed.

Section Literal.

Variable colors : string -> string.
Variable input : string -> string.

(** [traverse_dict] finds nothing to do in a mapping of literal strings. *)
Lemma traverse_dict_literal depth h l d ud :
  h !! l = Some (ODict d) -> is_literal_dict d = true ->
  traverse_dict colors input (S depth) h l ud = Ok h.
Proof.
  intros Hl Hlit. simpl. unfold get_dict at 1. rewrite Hl. simpl.
  apply for_each_unchanged. intros k Hk.
  destruct (dict_get_is_Some _ _ Hk) as [v Hv].
  destruct (is_literal_dict_elem _ _ _ Hlit (dict_get_elem_of _ _ _ Hv))
    as [[s ->] [s' ->]].
  unfold traverse_dict_body, get_dict, dict_getitem. rewrite Hl. simpl.
  by rewrite Hv.
Qed.

(** The loop of [process_data] over groups of literal strings: each group
    gets a new dictionary with the entries of its store, and the objects
    that were there stay as they are. *)
Lemma process_data_literal_loop ud items :
  forall hc acc,
  (forall k v, (k, v) ∈ items ->
     exists s d, v = VRef s /\ hc !! s = Some (OStore d) /\ is_literal_dict d = true) ->
  exists h' out,
    for_each (process_data_body colors input ud) items (hc, acc) = Ok (h', out)
    /\ (exists ext, h' = hc ++ ext)
    /\ forall g,
         match dict_get (reverse items) g with
         | Some v => exists l s d, v = VRef s /\ hc !! s = Some (OStore d)
                       /\ dict_get out g = Some (VRef l) /\ h' !! l = Some (ODict d)
         | None => dict_get out g = dict_get acc g
         end.
Proof.
  induction items as [|[k v] items IH]; intros hc acc Hitems.
  - exists hc, acc. split; [done|]. split; [by exists []; rewrite app_nil_r|done].
  - destruct (Hitems k v) as (s & d & -> & Hs & Hlit); [apply elem_of_cons; auto|].
    assert ((hc ++ [ODict d]) !! length hc = Some (ODict d)) as Hnew.
    { rewrite lookup_app_r by lia. by rewrite Nat.sub_diag. }
    cbn [for_each process_data_body alloc]. unfold to_dict. rewrite Hs.
    cbn [mbind result_bind]. change recursion_limit with (S 999).
    rewrite (traverse_dict_literal _ _ _ d) by done. cbn [mbind result_bind].
    destruct (IH (hc ++ [ODict d]) (dict_set acc k (VRef (length hc))))
      as (h' & out & Hloop & [ext ->] & Hout).
    { intros k' v' Hin. destruct (Hitems k' v') as (s' & d' & -> & Hs' & Hlit');
        [apply elem_of_cons; auto|].
      exists s', d'. split; [done|]. split; [|done].
      rewrite lookup_app_l; [done|]. by eapply lookup_lt_Some. }
    exists ((hc ++ [ODict d]) ++ ext), out. split; [done|].
    split; [by exists ([ODict d] ++ ext); rewrite app_assoc|].
    intros g. specialize (Hout g). rewrite reverse_cons, dict_get_app.
    destruct (dict_get (reverse items) g) as [v'|] eqn:Hg.
    + destruct Hout as (l & s' & d' & -> & Hs' & Hl & Hd').
      exists l, s', d'. split; [done|]. split; [|done].
      apply dict_get_elem_of in Hg. rewrite elem_of_reverse in Hg.
      destruct (Hitems g (VRef s')) as (s2 & d2 & [= <-] & Hs2 & _);
        [apply elem_of_cons; auto|].
      rewrite lookup_app_l in Hs'; [done|]. apply (lookup_lt_Some _ _ _ Hs2).
    + simpl. rewrite dict_get_set in Hout. destruct (decide (g = k)) as [->|Hne].
      * rewrite decide_True in Hout by done.
        exists (length hc), s, d. repeat split; try done.
        rewrite <- app_assoc. rewrite lookup_app_r by lia.
        by rewrite Nat.sub_diag.
      * by rewrite decide_False in Hout by done.
Qed.

Lemma literal_groups_elem h raw k v :
  literal_groups h raw = true -> (k, v) ∈ raw ->
  exists s d, v = VRef s /\ h !! s = Some (OStore d) /\ is_literal_dict d = true.
Proof.
  unfold literal_groups. rewrite forallb_forall. intros Hall Hin.
  apply list_elem_of_In, Hall in Hin. simpl in Hin.
  destruct v as [| |s]; try done. destruct (h !! s) as [[]|] eqn:Hs; try done.
  eauto.
Qed.

Lemma literal_groups_app h ext raw :
  literal_groups h raw = true -> literal_groups (h ++ ext) raw = true.
Proof.
  unfold literal_groups. rewrite !forallb_forall. intros Hall [k v] He.
  specialize (Hall (k, v) He). simpl in *. destruct v as [| |s]; try done.
  destruct (h !! s) as [o|] eqn:Hs; [|done].
  rewrite lookup_app_l; [by rewrite Hs|]. by eapply lookup_lt_Some.
Qed.

(** One call of [process_data] on groups of literal strings. *)
Lemma process_data_literal h raw_data raw ud :
  h !! raw_data = Some (ODict raw) -> NoDup raw.*1 ->
  literal_groups h raw = true ->
  exists h' out,
    process_data colors input h raw_data ud = Ok (h', out)
    /\ (exists ext, h' = h ++ ext)
    /\ (forall g, dict_get raw g = None -> dict_get out g = None)
    /\ (forall g s d, dict_get raw g = Some (VRef s) -> h !! s = Some (OStore d) ->
          exists l, dict_get out g = Some (VRef l) /\ h' !! l = Some (ODict d)).
Proof.
  intros Hraw Hnd Hlit. unfold process_data, get_dict. rewrite Hraw. simpl.
  destruct (process_data_literal_loop ud raw h [])
    as (h' & out & Hloop & Hext & Hout).
  { intros k v. by apply literal_groups_elem. }
  exists h', out. split; [done|]. split; [done|]. split.
  - intros g Hg. specialize (Hout g). by rewrite dict_get_reverse, Hg in Hout.
  - intros g s d Hg Hs. specialize (Hout g). rewrite dict_get_reverse, Hg in Hout by done.
    destruct Hout as (l & s' & d' & [= <-] & Hs' & Hl & Hd). exists l.
    rewrite Hs in Hs'. by injection Hs' as <-.
Qed.

(** Any number of calls, one after the other. *)
Lemma process_data_again_literal n : forall h raw_data raw ud,
  h !! raw_data = Some (ODict raw) -> NoDup raw.*1 ->
  literal_groups h raw = true ->
  exists h' out,
    process_data_again colors input n h raw_data ud = Ok (h', out)
    /\ (forall g, dict_get raw g = None -> dict_get out g = None)
    /\ (forall g s d, dict_get raw g = Some (VRef s) -> h !! s = Some (OStore d) ->
          exists l, dict_get out g = Some (VRef l) /\ h' !! l = Some (ODict d)).
Proof.
  induction n as [|n IH]; intros h raw_data raw ud Hraw Hnd Hlit.
  - destruct (process_data_literal h raw_data raw ud) as (h' & out & ? & ? & ? & ?);
      eauto 10.
  - destruct (process_data_literal h raw_data raw ud)
      as (h1 & out1 & Hcall & [ext ->] & _ & _); try done.
    simpl. rewrite Hcall. simpl.
    destruct (IH (h ++ ext) raw_data raw ud) as (h' & out & Hagain & Hnone & Hsome).
    + rewrite lookup_app_l; [done|]. by eapply lookup_lt_Some.
    + done.
    + by apply literal_groups_app.
    + exists h', out. split; [done|]. split; [done|].
      intros g s d Hg Hs. apply (Hsome g s d Hg).
      rewrite lookup_app_l; [done|]. by eapply lookup_lt_Some.
Qed.

End Literal.

(** A loop each of whose turns files a literal under the turn's own key. *)
Lemma for_each_files_literals (body : pydict -> key -> result pydict)
    (lit : key -> option value) ks :
  (forall c k, k ∈ ks -> exists v, lit k = Some v /\ body c k = Ok (dict_set c k v)) ->
  forall c, exists out,
    for_each body ks c = Ok out
    /\ forall k, dict_get out k = if decide (k ∈ ks) then lit k else dict_get c k.
Proof.
  induction ks as [|k0 ks IH]; intros Hbody c.
  - exists c. split; [done|]. intros k. rewrite decide_False; [done|].
    apply not_elem_of_nil.
  - destruct (Hbody c k0) as (v0 & Hlit0 & Hturn); [apply elem_of_cons; auto|].
    destruct (IH (fun c k Hk => Hbody c k (proj2 (elem_of_cons _ _ _) (or_intror Hk)))
                 (dict_set c k0 v0)) as (out & Hloop & Hout).
    exists out. simpl. rewrite Hturn. simpl. split; [done|].
    intros k. rewrite Hout, dict_get_set.
    destruct (decide (k ∈ ks)) as [Hin|Hnin].
    + rewrite decide_True; [done|]. apply elem_of_cons; auto.
    + destruct (decide (k0 = k)) as [->|Hne].
      * rewrite decide_True; [done|]. apply elem_of_cons; auto.
      * rewrite decide_False; [done|]. rewrite elem_of_cons. by intros [?|?].
Qed.

Lemma fixed_store_key h ud d k :
  fixed_store h ud d = true -> k ∈ d.*1 ->
  exists v p, dict_get d k = Some v /\ get_plugin h v = Some p
    /\ k = KStr (name p) /\ name_not_known_in_advance p = false
    /\ truthy (get_value p ud) = true.
Proof.
  unfold fixed_store. rewrite forallb_forall. intros Hall Hin.
  destruct (dict_get_is_Some _ _ Hin) as [v Hv]. exists v.
  pose proof (dict_get_elem_of _ _ _ Hv) as Hfix.
  apply list_elem_of_In, Hall in Hfix. unfold fixed_entry in Hfix. simpl in Hfix.
  destruct (get_plugin h v) as [p|]; [|done]. exists p.
  apply andb_prop in Hfix as [[Hk Hflag]%andb_prop Hval].
  apply bool_decide_eq_true in Hk. apply negb_true_iff in Hflag. done.
Qed.

Section FixedStores.

Variable colors : string -> string.
Variable input : string -> string.

Lemma process_cookies_fixed h raw_cookies d ud :
  h !! raw_cookies = Some (OStore d) -> fixed_store h ud d = true ->
  exists out,
    process_cookies colors input h raw_cookies ud = Ok out
    /\ forall k, dict_get out k = dict_get d k ≫= literal_of h ud.
Proof.
  intros Hraw Hfix. unfold process_cookies, to_dict. rewrite Hraw. simpl.
  destruct (for_each_files_literals (process_cookies_body colors input h d ud)
              (fun k => dict_get d k ≫= literal_of h ud) (d.*1)) with (c := d)
    as (out & Hloop & Hout).
  - intros c k Hk.
    destruct (fixed_store_key _ _ _ _ Hfix Hk) as (v & p & Hv & Hp & -> & Hflag & Hval).
    exists (VStr (str_of (get_value p ud))). unfold literal_of. rewrite Hv. simpl.
    rewrite Hp. simpl. split; [done|].
    unfold process_cookies_body, dict_getitem, as_plugin, value_or_prompt.
    rewrite Hv. simpl. rewrite Hp. simpl. by rewrite Hflag, Hval, Hval.
  - exists out. split; [done|]. intros k. rewrite Hout.
    destruct (decide (k ∈ d.*1)) as [Hin|Hnin]; [done|].
    by rewrite dict_get_None.
Qed.

Lemma process_headers_fixed h raw_headers d ud pconfig :
  h !! raw_headers = Some (OStore d) -> fixed_store h ud d = true ->
  exists out,
    process_headers colors input h raw_headers ud pconfig = Ok out
    /\ forall k, dict_get out k =
         match dict_get d k ≫= literal_of h ud with
         | Some v => Some v
         | None => if decide (k = KStr "user-agent")
                   then Some (VStr (user_agent pconfig)) else None
         end.
Proof.
  intros Hraw Hfix. unfold process_headers, to_dict. rewrite Hraw. simpl.
  destruct (for_each_files_literals (process_headers_body colors input h d ud)
              (fun k => dict_get d k ≫= literal_of h ud) (d.*1))
    with (c := dict_set d (KStr "user-agent") (VStr (user_agent pconfig)))
    as (out & Hloop & Hout).
  - intros c k Hk.
    destruct (fixed_store_key _ _ _ _ Hfix Hk) as (v & p & Hv & Hp & -> & Hflag & Hval).
    exists (VStr (str_of (get_value p ud))). unfold literal_of. rewrite Hv. simpl.
    rewrite Hp. simpl. split; [done|].
    unfold process_headers_body, dict_getitem, as_plugin, value_or_prompt.
    rewrite Hv. simpl. rewrite Hp. simpl. by rewrite Hflag, Hval, Hval.
  - exists out. split; [done|]. intros k. rewrite Hout.
    destruct (decide (k ∈ d.*1)) as [Hin|Hnin].
    + destruct (fixed_store_key _ _ _ _ Hfix Hin) as (v & p & Hv & Hp & _).
      unfold literal_of. rewrite Hv. simpl. by rewrite Hp.
    + rewrite dict_get_set, (dict_get_None d k) by done. simpl.
      destruct (decide (KStr "user-agent" = k)) as [<-|Hne].
      * by rewrite decide_True.
      * by rewrite decide_False.
Qed.

(** C8 (amended).  Resolving a request body all of whose groups hold
    literal strings only yields, for each group, exactly the group's own
    mapping, on the first call and on every later one.  A cookie or header
    store holds cookies and headers; when each stands for a literal,
    resolving the cookie store yields exactly the name-to-value mapping, and
    resolving the header store yields that mapping together with the
    injected [user-agent] entry. *)
Theorem literal_containers_resolve_to_their_mapping h ud pconfig :
  (forall n raw_data raw,
     h !! raw_data = Some (ODict raw) -> NoDup raw.*1 ->
     literal_groups h raw = true ->
     exists h' out,
       process_data_again colors input n h raw_data ud = Ok (h', out)
       /\ (forall g, dict_get raw g = None -> dict_get out g = None)
       /\ (forall g s d, dict_get raw g = Some (VRef s) -> h !! s = Some (OStore d) ->
             exists l, dict_get out g = Some (VRef l) /\ h' !! l = Some (ODict d)))
  /\ (forall raw_cookies d,
        h !! raw_cookies = Some (OStore d) -> fixed_store h ud d = true ->
        exists out,
          process_cookies colors input h raw_cookies ud = Ok out
          /\ forall k, dict_get out k = dict_get d k ≫= literal_of h ud)
  /\ (forall raw_headers d,
        h !! raw_headers = Some (OStore d) -> fixed_store h ud d = true ->
        exists out,
          process_headers colors input h raw_headers ud pconfig = Ok out
          /\ forall k, dict_get out k =
               match dict_get d k ≫= literal_of h ud with
               | Some v => Some v
               | None => if decide (k = KStr "user-agent")
                         then Some (VStr (user_agent pconfig)) else None
               end).
Proof.
  split; [|split].
  - intros n raw_data raw. apply process_data_again_literal.
  - intros raw_cookies d. apply process_cookies_fixed.
  - intros raw_headers d. apply process_headers_fixed.
Qed.

End FixedStores.

(** C8: the header store without entries does not resolve to its own
    (empty) mapping. *)
Lemma process_headers_empty_store_not_empty :
  to_dict Scenario.literal_heap 0 = Ok []
  /\ process_headers Scenario.no_colors Scenario.enter_only
       Scenario.literal_heap 0 [] Scenario.pconfig
     = Ok [(KStr "user-agent", VStr "raider")].
Proof. split; reflexivity. Qed.

(** C8 (amended), on a body with one literal group, a cookie store with the
    cookie [sid] and a header store without entries; the body is resolved
    three times. *)
Lemma literal_containers_resolve_to_their_mapping_witness :
  (exists h' out,
     process_data_again Scenario.no_colors Scenario.enter_only 2
       Scenario.literal_heap 2 [] = Ok (h', out)
     /\ exists l, dict_get out (KStr "data") = Some (VRef l)
          /\ h' !! l = Some (ODict [(KStr "user", VStr "alice");
                                    (KStr "note", VStr EmptyString)]))
  /\ (exists out,
        process_cookies Scenario.no_colors Scenario.enter_only
          Scenario.literal_heap 4 [] = Ok out
        /\ dict_get out (KStr "sid") = Some (VStr "abc"))
  /\ (exists out,
        process_headers Scenario.no_colors Scenario.enter_only
          Scenario.literal_heap 0 [] Scenario.pconfig = Ok out
        /\ dict_get out (KStr "user-agent") = Some (VStr "raider")).
Proof.
  destruct (literal_containers_resolve_to_their_mapping
              Scenario.no_colors Scenario.enter_only
              Scenario.literal_heap [] Scenario.pconfig) as (Hdata & Hcookies & Hheaders).
  split; [|split].
  - destruct (Hdata 2 2 [(KStr "data", VRef 1)]) as (h' & out & Hcall & _ & Hsome).
    + reflexivity.
    + apply NoDup_singleton.
    + reflexivity.
    + exists h', out. split; [exact Hcall|].
      apply (Hsome (KStr "data") 1); reflexivity.
  - destruct (Hcookies 4 [(KStr "sid", VRef 3)]) as (out & Hcall & Hout);
      [reflexivity|reflexivity|].
    exists out. split; [exact Hcall|]. apply Hout.
  - destruct (Hheaders 0 []) as (out & Hcall & Hout); [reflexivity|reflexivity|].
    exists out. split; [exact Hcall|]. apply Hout.
Defined.

(** ** Slots without a value that are not dropped *)

(** A loop raises when one of its turns raises in every state the loop
    can be in. *)
Lemma for_each_raises_in {A S} (body : S -> A -> result S) (I : S -> Prop) l s x :
  x ∈ l -> I s ->
  (forall s y s', I s -> body s y = Ok s' -> I s') ->
  (forall s, I s -> exists e, body s x = Raise e) ->
  exists e, for_each body l s = Raise e.
Proof.
  intros Hin Hs Hkeep Hx. revert s Hs.
  induction l as [|y l IH]; intros s Hs; [by apply elem_of_nil in Hin|].
  simpl. destruct (body s y) as [s1|e] eqn:Hy; simpl; [|eauto].
  apply elem_of_cons in Hin as [->|Hin].
  - destruct (Hx s Hs) as [e He]. congruence.
  - apply IH; [done|]. by eapply Hkeep.
Qed.

Section Raising.

Variable colors : string -> string.
Variable input : string -> string.

Lemma keeps_other_objects_set_dict (h : heap) l d0 d :
  h !! l = Some (ODict d0) -> keeps_other_objects h (set_dict h l d).
Proof.
  intros Hl l' o Ho Hnd. unfold set_dict. rewrite list_lookup_insert_ne; [done|].
  intros <-. rewrite Hl in Ho. injection Ho as <-. by eapply Hnd.
Qed.

Lemma get_dict_Ok (h : heap) l d : get_dict h l = Ok d -> h !! l = Some (ODict d).
Proof. unfold get_dict. by destruct (h !! l) as [[| | |]|]; intros [= <-]. Qed.

Lemma traverse_dict_body_keeps rec ud data h k h' :
  (forall hx l hy, rec hx l = Ok hy -> keeps_other_objects hx hy) ->
  traverse_dict_body colors input rec ud data h k = Ok h' ->
  keeps_other_objects h h'.
Proof.
  intros Hrec. unfold traverse_dict_body.
  intros (d & Hd%get_dict_Ok & (v & _ & (h1 & H1 & Hkey)%bind_Ok)%bind_Ok)%bind_Ok.
  assert (keeps_other_objects h h1) as Hk1.
  { destruct (get_plugin h v) as [p|].
    - destruct (negb _).
      + apply bind_Ok in H1 as (d' & _ & [= <-]).
        by eapply keeps_other_objects_set_dict.
      + injection H1 as <-. by eapply keeps_other_objects_set_dict.
    - destruct v as [| |l]; try (injection H1 as <-; by intros ???).
      destruct (h !! l) as [[| | |]|]; try (injection H1 as <-; by intros ???).
      by eapply Hrec. }
  destruct (get_key_plugin h1 k) as [p|]; [|injection Hkey as <-; done].
  apply bind_Ok in Hkey as (d1 & Hd1%get_dict_Ok & Hkey).
  apply bind_Ok in Hkey as ([nv d2] & _ & Hkey).
  assert (keeps_other_objects h1 h') as Hk2.
  { destruct (negb _).
    - apply bind_Ok in Hkey as (d' & _ & [= <-]).
      by eapply keeps_other_objects_set_dict.
    - injection Hkey as <-. by eapply keeps_other_objects_set_dict. }
  intros l o Ho Hnd. apply Hk2; [|done]. by apply Hk1.
Qed.

Lemma traverse_dict_keeps depth : forall h data ud h',
  traverse_dict colors input depth h data ud = Ok h' -> keeps_other_objects h h'.
Proof.
  induction depth as [|depth IH]; intros h data ud h'; [done|].
  simpl. intros (d & _ & Hloop)%bind_Ok. revert Hloop.
  apply (for_each_invariant _ (fun hx => keeps_other_objects h hx)).
  - intros hx k hy _ Hhx Hbody l o Ho Hnd.
    eapply traverse_dict_body_keeps in Hbody; [|intros ???; apply IH].
    apply Hbody; [|done]. by apply Hhx.
  - by intros ???.
Qed.

(** The turn of [traverse_dict] for a key that is a plugin without a
    value never ends well: once the entry is popped under the key, the key
    is popped again. *)
Lemma traverse_dict_body_empty_key rec ud data h l p :
  (forall hx l' hy, rec hx l' = Ok hy -> keeps_other_objects hx hy) ->
  h !! l = Some (OPlugin p) ->
  truthy (value_or_prompt colors input "Key" (name p) (get_value p ud)) = false ->
  exists e, traverse_dict_body colors input rec ud data h (KObj l) = Raise e.
Proof.
  intros Hrec Hl Hempty.
  destruct (traverse_dict_body colors input rec ud data h (KObj l)) as [h'|e] eqn:Hbody;
    [exfalso|eauto].
  revert Hbody. unfold traverse_dict_body.
  intros (d & Hd%get_dict_Ok & (v & _ & (h1 & H1 & Hkey)%bind_Ok)%bind_Ok)%bind_Ok.
  assert (h1 !! l = Some (OPlugin p)) as Hl1.
  { assert (keeps_other_objects h h1) as Hk1; [|by apply Hk1].
    destruct (get_plugin h v) as [q|].
    - destruct (negb _).
      + apply bind_Ok in H1 as (d' & _ & [= <-]).
        by eapply keeps_other_objects_set_dict.
      + injection H1 as <-. by eapply keeps_other_objects_set_dict.
    - destruct v as [| |l0]; try (injection H1 as <-; by intros ???).
      destruct (h !! l0) as [[| | |]|]; try (injection H1 as <-; by intros ???).
      by eapply Hrec. }
  unfold get_key_plugin, get_plugin in Hkey. rewrite Hl1 in Hkey.
  apply bind_Ok in Hkey as (d1 & _ & Hkey).
  apply bind_Ok in Hkey as ([nv d2] & Hpop & Hkey).
  rewrite Hempty in Hkey. simpl in Hkey.
  unfold dict_pop in Hpop. destruct (dict_get d1 (KObj l)); [|done].
  injection Hpop as _ <-.
  by rewrite dict_del_missing in Hkey by apply dict_get_remove_eq.
Qed.

Lemma traverse_dict_empty_key depth h data d ud l p :
  h !! data = Some (ODict d) -> KObj l ∈ d.*1 ->
  h !! l = Some (OPlugin p) ->
  truthy (value_or_prompt colors input "Key" (name p) (get_value p ud)) = false ->
  exists e, traverse_dict colors input depth h data ud = Raise e.
Proof.
  intros Hd Hin Hl Hempty. destruct depth as [|depth]; [by exists RecursionError|].
  simpl. unfold get_dict. rewrite Hd. simpl.
  apply (for_each_raises_in _ (fun hx => hx !! l = Some (OPlugin p))) with (x := KObj l);
    [done|done| |].
  - intros hx k hy Hhx Hbody.
    eapply traverse_dict_body_keeps in Hbody; [by apply Hbody|].
    intros ???. apply traverse_dict_keeps.
  - intros hx Hhx. eapply traverse_dict_body_empty_key; [|done|done].
    intros ???. apply traverse_dict_keeps.
Qed.

(** C2.  Whenever a group of the request body has a key that is a plugin
    for which neither the plugin nor the operator gives a value,
    [process_data] raises an exception: the entry is not dropped and no
    mapping is returned. *)
Theorem process_data_empty_key_raises h raw_data raw ud g s d l p :
  h !! raw_data = Some (ODict raw) ->
  (g, VRef s) ∈ raw ->
  h !! s = Some (OStore d) ->
  KObj l ∈ d.*1 ->
  h !! l = Some (OPlugin p) ->
  truthy (value_or_prompt colors input "Key" (name p) (get_value p ud)) = false ->
  exists e, process_data colors input h raw_data ud = Raise e.
Proof.
  intros Hraw Hg Hs Hin Hl Hempty. unfold process_data, get_dict. rewrite Hraw. simpl.
  apply (for_each_raises_in _
           (fun st => st.1 !! s = Some (OStore d) /\ st.1 !! l = Some (OPlugin p)))
    with (x := (g, VRef s)); [done|done| |].
  - intros [hx acc] [k v] [hy acc'] [Hsx Hlx]. cbn [process_data_body alloc fst].
    intros (store & _ & (hz & Htrav%traverse_dict_keeps & [= <- _])%bind_Ok)%bind_Ok.
    split; apply Htrav; try done; rewrite lookup_app_l; try done;
      by eapply lookup_lt_Some.
  - intros [hx acc] [Hsx Hlx]. cbn [process_data_body alloc fst] in *.
    unfold to_dict. rewrite Hsx. cbn [mbind result_bind].
    destruct (traverse_dict_empty_key recursion_limit (hx ++ [ODict d]) (length hx)
                d ud l p) as [e He]; try done.
    + rewrite lookup_app_r by lia. by rewrite Nat.sub_diag.
    + rewrite lookup_app_l; [done|]. by eapply lookup_lt_Some.
    + exists e. by rewrite He.
Qed.

(** The turn of [process_headers] for a header of a name not known in
    advance, filed under its name in small letters, with no value from the
    plugin or the operator, pops its key twice. *)
Lemma process_headers_body_pops_twice h d ud c l p :
  dict_get d (KStr (lower (name p))) = Some (VRef l) ->
  h !! l = Some (OPlugin p) ->
  name_not_known_in_advance p = true ->
  truthy (value_or_prompt colors input "Header" (name p) (get_value p ud)) = false ->
  process_headers_body colors input h d ud c (KStr (lower (name p))) = Raise KeyError.
Proof.
  intros Hk Hl Hflag Hempty. unfold process_headers_body, dict_getitem, as_plugin.
  rewrite Hk. simpl. rewrite Hl. simpl. rewrite Hflag, Hempty. simpl.
  destruct (dict_del c _) as [c'|e] eqn:Hdel; simpl.
  - apply dict_del_Ok in Hdel as ->. apply dict_del_missing, dict_get_remove_eq.
  - by apply dict_del_raise in Hdel as ->.
Qed.

Lemma process_headers_body_raise h d ud c k e :
  all_plugins h d = true -> k ∈ d.*1 ->
  process_headers_body colors input h d ud c k = Raise e -> e = KeyError.
Proof.
  intros Hall Hin. unfold process_headers_body, dict_getitem, as_plugin.
  destruct (dict_get_is_Some _ _ Hin) as [v Hv]. rewrite Hv. simpl.
  destruct (all_plugins_elem _ _ _ _ Hall (dict_get_elem_of _ _ _ Hv)) as [p ->].
  simpl. destruct (name_not_known_in_advance p); simpl.
  - destruct (dict_del c k) as [c'|e'] eqn:Hdel; simpl.
    + destruct (negb _); [apply dict_del_raise|done].
    + intros [= <-]. by apply dict_del_raise in Hdel.
  - destruct (negb _); [apply dict_del_raise|done].
Qed.

(** C1.  In every header store (of headers) that has, under its name in
    small letters, a header whose name is not known in advance and for
    which neither the plugin nor the operator gives a value,
    [process_headers] raises [KeyError]: the slot is not dropped quietly. *)
Theorem process_headers_late_name_KeyError h raw_headers ud pconfig d l p :
  h !! raw_headers = Some (OStore d) ->
  all_plugins h d = true ->
  dict_get d (KStr (lower (name p))) = Some (VRef l) ->
  h !! l = Some (OPlugin p) ->
  name_not_known_in_advance p = true ->
  truthy (value_or_prompt colors input "Header" (name p) (get_value p ud)) = false ->
  process_headers colors input h raw_headers ud pconfig = Raise KeyError.
Proof.
  intros Hraw Hall Hk Hl Hflag Hempty. unfold process_headers, to_dict.
  rewrite Hraw. simpl. apply for_each_raises with (x := KStr (lower (name p))).
  - apply list_elem_of_fmap. exists (KStr (lower (name p)), VRef l). split; [done|].
    by apply dict_get_elem_of.
  - intros c. by eapply process_headers_body_pops_twice.
  - intros c y e Hy. by apply process_headers_body_raise.
Qed.

End Raising.

(** C1, on the header [x-token] of a name not known in advance. *)
Lemma process_headers_late_name_KeyError_witness :
  process_headers Scenario.no_colors Scenario.enter_only
    Scenario.late_header_heap 1 [] Scenario.pconfig = Raise KeyError.
Proof.
  apply (process_headers_late_name_KeyError Scenario.no_colors Scenario.enter_only
           Scenario.late_header_heap 1 [] Scenario.pconfig
           [(KStr "x-token", VRef 0)] 0 (Scenario.late_named "x-token" None));
    reflexivity.
Defined.

(** C2, on the body [{K: V}] whose key resolves to nothing. *)
Lemma process_data_empty_key_raises_witness :
  exists e, process_data Scenario.no_colors Scenario.enter_only
              Scenario.plugin_entry_heap 3 [] = Raise e.
Proof.
  apply (process_data_empty_key_raises Scenario.no_colors Scenario.enter_only
           Scenario.plugin_entry_heap 3 [(KStr "data", VRef 2)] [] (KStr "data") 2
           [(KObj 0, VRef 1)] 0 (Scenario.fixed "k" None));
    try reflexivity.
  - apply elem_of_cons. by left.
  - apply elem_of_cons. by left.
Defined.

(** ** Where the code does not do what its description says *)

(** The body [{K: "v"}], whose key [K] resolves to nothing: the exception
    of [process_data] is [KeyError]. *)
Example process_data_empty_key_KeyError :
  process_data Scenario.no_colors Scenario.enter_only
    Scenario.empty_key_heap 2 [] = Raise KeyError.
Proof. vm_compute. reflexivity. Qed.

(** An entry [{K: V}], key and value both plugins.  With the key resolving
    to nothing the exception is [KeyError]; with the value resolving to
    nothing, and dropped, the key's turn raises [KeyError] as well, for all
    that the key has a value. *)
Example process_data_plugin_entry_KeyError :
  process_data Scenario.no_colors Scenario.enter_only
    Scenario.plugin_entry_heap 3 [] = Raise KeyError
  /\ process_data Scenario.no_colors Scenario.enter_only
       Scenario.dropped_value_heap 3 [] = Raise KeyError.
Proof. split; vm_compute; reflexivity. Qed.

(** C3.  [Request.put("http://x", data={"password": password})]: the body
    group [data] holds the plugin [password], and [list_inputs] returns the
    empty mapping. *)
Theorem list_inputs_misses_body_plugins :
  ('(h, r) ← Scenario.password_request;
   body ← body_group h r "data";
   inputs ← list_inputs h r;
   Ok (body, get_plugin h (VRef 0), inputs))
  = Ok ([(KStr "password", VRef 0)],
        Some (Scenario.fixed "password" (Some "hunter2")),
        []).
Proof. vm_compute. reflexivity. Qed.

Section Warning.

Variable colors : string -> string.
Variable input : string -> string.
Variable urlencode : pydict -> string.

(** C5.  Whenever a request with a method other than GET was built with at
    least one of the groups [data], [json], [multipart] (a single one is
    enough) and [send] gets as far as the transport, the first log record
    of [send] is the warning about groups given at the same time. *)
Theorem send_warns_about_any_group h self pconfig r h' log call :
  get_request h self = Ok r ->
  method r <> "GET" ->
  body_attrs (kwargs r) <> [] ->
  send colors input urlencode h self pconfig = Ok (h', log, call) ->
  head log = Some (Warning (method r +:+ " requests cannot contain :"
                            +:+ join ", :" (body_attrs (kwargs r))
                            +:+ " at the same time. Undefined behaviour!")).
Proof.
  intros Hr Hm Hattrs. unfold send. rewrite Hr. cbn [mbind result_bind].
  set (r' := match get_plugin h (url _) with Some _ => _ | None => _ end).
  assert (method r' = method r /\ kwargs r' = kwargs r) as [Hm' Hk'].
  { subst r'. by destruct (get_plugin h _). }
  intros (cs & _ & (hs & _ & ([h1 processed] & _ & Hrest)%bind_Ok)%bind_Ok)%bind_Ok.
  apply bind_Ok in Hrest as (params & _ & [= _ <- _]).
  rewrite Hm', Hk'. unfold body_warning.
  rewrite (bool_decide_eq_false_2 _ Hm), (bool_decide_eq_true_2 _ Hattrs). done.
Qed.

End Warning.

(** C5, on [Request.put("http://x", data={"a": "b"})]: one group, and the
    warning is there. *)
Lemma send_warns_about_any_group_witness :
  exists h' log call,
    send Scenario.no_colors Scenario.enter_only Scenario.plain_urlencode
      Scenario.single_group_heap 4 Scenario.pconfig = Ok (h', log, call)
    /\ head log = Some (Warning
         "PUT requests cannot contain :data at the same time. Undefined behaviour!").
Proof.
  eexists _, _, _. split; [vm_compute; reflexivity|].
  eapply (send_warns_about_any_group Scenario.no_colors Scenario.enter_only
           Scenario.plain_urlencode Scenario.single_group_heap 4 Scenario.pconfig
           Scenario.single_group); [reflexivity|discriminate|discriminate|reflexivity].
Defined.

(** C9.  [Request.put("http://x", json={"outer": {"inner": inner}})]:
    before [send] the dictionary under [outer] holds the plugin [inner],
    after [send] the same dictionary of the request's group [json] holds the
    string the plugin resolved to. *)
Theorem send_resolves_nested_dictionaries_in_place :
  ('(h, r) ← Scenario.nested_request;
   before ← body_group h r "json";
   '(h', _, _) ← send Scenario.no_colors Scenario.enter_only
                   Scenario.plain_urlencode h r Scenario.pconfig;
   after ← body_group h' r "json";
   Ok (before, h !! 1, after, h' !! 1))
  = Ok ([(KStr "outer", VRef 1)], Some (ODict [(KStr "inner", VRef 0)]),
        [(KStr "outer", VRef 1)], Some (ODict [(KStr "inner", VStr "v")])).
Proof. vm_compute. reflexivity. Qed.

(** ** What the same functions do as described *)

(** On [Scenario.mixed_request]: [list_inputs] lists the url, the cookie
    with its two children and the headers; [send] warns that a GET request
    ignores the group [json], stores the url's empty resolution on the
    request and passes it on, drops the header without a value, and leaves
    method, stores and body mapping of the request where they were. *)
Example send_and_list_inputs_as_described :
  ('(h, r) ← Scenario.mixed_request;
   inputs ← list_inputs h r;
   '(h', log, call) ← send Scenario.no_colors Scenario.enter_only
                        Scenario.plain_urlencode h r Scenario.pconfig;
   before ← get_request h r;
   after ← get_request h' r;
   Ok (inputs, head log, call_url call, call_headers call, call_cookies call,
       (url before, url after),
       (method after, headers after, cookies after, data after),
       (h' !! headers after, h' !! cookies after, h' !! data after,
        body_group h' r "json")))
  = Ok ([(KStr "u", VRef 3); (KStr "c", VRef 2); (KStr "a", VRef 0); (KStr "b", VRef 1)],
        Some (Warning "GET requests can only contain :params. Ignoring :json"),
        VNone,
        [(KStr "b", VStr "2"); (KStr "user-agent", VStr "raider")],
        [(KStr "c", VStr "x")],
        (VRef 3, VNone),
        ("GET", 4, 5, 7),
        (Some (OStore [(KStr "b", VRef 1); (KStr "a", VRef 0)]),
         Some (OStore [(KStr "c", VRef 2)]),
         Some (ODict [(KStr "json", VRef 6)]),
         Ok [(KStr "x", VStr "y")])).
Proof. vm_compute. reflexivity. Qed.

(** ** Templates *)

Lemma refs_dict_cons k v (d : pydict) :
  refs_dict ((k, v) :: d) = refs_key k ++ refs_value v ++ refs_dict d.
Proof. unfold refs_dict. simpl. by rewrite <- app_assoc. Qed.

Lemma refs_dict_set (d : pydict) k v l :
  l ∈ refs_dict (dict_set d k v) -> l ∈ refs_dict d \/ l ∈ refs_key k \/ l ∈ refs_value v.
Proof.
  induction d as [|[k' v'] d IH]; cbn [dict_set].
  - rewrite refs_dict_cons, !elem_of_app. tauto.
  - destruct (decide (k = k')) as [->|Hne]; rewrite !refs_dict_cons, !elem_of_app;
      tauto.
Qed.

Lemma refs_dict_update (other d : pydict) l :
  l ∈ refs_dict (dict_update d other) -> l ∈ refs_dict d \/ l ∈ refs_dict other.
Proof.
  unfold dict_update. revert d. induction other as [|[k v] other IH]; intros d;
    cbn [foldl fst snd].
  - auto.
  - intros [[H|[H|H]]%refs_dict_set|H]%IH; rewrite refs_dict_cons, !elem_of_app; auto.
Qed.

(** Every reference inside a copy is to a copy. *)
Lemma refs_shift_dict n (d : pydict) l : l ∈ refs_dict (shift_dict n d) -> n <= l.
Proof.
  induction d as [|[k v] d IH]; cbn [shift_dict map fst snd].
  - by intros ?%elem_of_nil.
  - rewrite refs_dict_cons, !elem_of_app. intros [H|[H|H]]; [| |by apply IH].
    + destruct k; simpl in H; [by apply elem_of_nil in H|].
      apply list_elem_of_singleton in H. lia.
    + destruct v; simpl in H; try (by apply elem_of_nil in H).
      apply list_elem_of_singleton in H. lia.
Qed.

Lemma refs_shift_obj n o l : l ∈ refs_obj (shift_obj n o) -> n <= l.
Proof.
  destruct o as [p|d|d|r]; simpl.
  - intros (l0 & -> & _)%list_elem_of_fmap. lia.
  - apply refs_shift_dict.
  - apply refs_shift_dict.
  - rewrite elem_of_app. intros [H|H].
    + destruct (url r); simpl in H; try (by apply elem_of_nil in H).
      apply list_elem_of_singleton in H. lia.
    + repeat (apply elem_of_cons in H as [->|H]; [lia|]). by apply elem_of_nil in H.
Qed.

(** The store built from a list of cookies or headers refers to them
    only. *)
Lemma refs_plugin_store h a d l :
  plugin_store h a = Ok d -> l ∈ refs_dict d -> l ∈ refs_kwarg a.
Proof.
  destruct a as [es| |]; simpl; [|done|by intros [= <-] ?%elem_of_nil].
  intros Hloop Hl.
  assert (l ∈ refs_dict [] \/ l ∈ es) as [?%elem_of_nil|?]; [|done|done].
  revert Hloop Hl. generalize (@nil (key * value)).
  induction es as [|e es IH]; intros d0; simpl.
  - intros [= <-]. auto.
  - intros (d1 & Hd1 & Hloop)%bind_Ok Hl.
    apply bind_Ok in Hd1 as (p & _ & [= <-]).
    destruct (IH _ Hloop Hl) as [[H|[H|H]]%refs_dict_set|H].
    + auto.
    + by apply elem_of_nil in H.
    + simpl in H. apply list_elem_of_singleton in H as ->. right. apply elem_of_cons; auto.
    + right. apply elem_of_cons; auto.
Qed.

(** The copy of the object at [l] is at [l + length h]. *)
Lemma deepcopy_lookup (h : heap) l :
  (h ++ map (shift_obj (length h)) h) !! (l + length h) = shift_obj (length h) <$> h !! l.
Proof.
  rewrite lookup_app_r by lia.
  replace (l + length h - length h) with l by lia.
  apply list_lookup_fmap.
Qed.

Lemma deepcopy_lookup_old (h : heap) l :
  l < length h -> (h ++ map (shift_obj (length h)) h) !! l = h !! l.
Proof. intros. by apply lookup_app_l. Qed.

Lemma call_invariant_deepcopy roots (h : heap) :
  call_invariant (length h) roots h (h ++ map (shift_obj (length h)) h).
Proof.
  split.
  - apply deepcopy_lookup_old.
  - intros l o l' Hl Ho Hl'. left.
    rewrite lookup_app_r, list_lookup_fmap in Ho by done.
    destruct (h !! (l - length h)) as [o0|]; [|done].
    injection Ho as <-. by eapply refs_shift_obj.
Qed.

Lemma call_invariant_insert n roots (h0 hx : heap) t o :
  call_invariant n roots h0 hx -> n <= t ->
  (forall l', l' ∈ refs_obj o -> n <= l' \/ l' ∈ roots) ->
  call_invariant n roots h0 (<[t := o]> hx).
Proof.
  intros [Hold Hnew] Ht Ho. split.
  - intros l Hl. rewrite list_lookup_insert_ne by lia. by apply Hold.
  - intros l o' l' Hl. rewrite list_lookup_insert_Some.
    intros [(_ & <- & _)|[_ Hl']]; [by apply Ho|by eapply Hnew].
Qed.

Lemma call_invariant_merge_into n roots (h0 hx hy : heap) l other :
  call_invariant n roots h0 hx -> n <= l ->
  (forall l', l' ∈ refs_dict other -> l' ∈ roots) ->
  merge_into hx l other = Ok hy ->
  call_invariant n roots h0 hy.
Proof.
  intros Hinv Hl Hother. unfold merge_into, to_dict.
  destruct (hx !! l) as [[| |d|]|] eqn:Hd; try done. simpl. intros [= <-].
  apply call_invariant_insert; [done|done|]. simpl.
  intros l' [H|H]%refs_dict_update; [|by auto].
  destruct Hinv as [_ Hnew]. by eapply (Hnew l (OStore d)).
Qed.

Lemma call_invariant_update_into n roots (h0 hx hy : heap) l a :
  call_invariant n roots h0 hx -> n <= l ->
  (forall l', l' ∈ refs_kwarg a -> l' ∈ roots) ->
  update_into hx l a = Ok hy ->
  call_invariant n roots h0 hy.
Proof.
  intros Hinv Hl Hother. unfold update_into, get_dict.
  destruct (hx !! l) as [[|d| |]|] eqn:Hd; try done. simpl.
  destruct a as [|o|]; try done. intros [= <-].
  apply call_invariant_insert; [done|done|]. simpl.
  intros l' [H|H]%refs_dict_update; [|by auto].
  destruct Hinv as [_ Hnew]. by eapply (Hnew l (ODict d)).
Qed.

(** The request read off the copy is the template's, moved. *)
Lemma deepcopy_request (h : heap) self r :
  get_request (h ++ map (shift_obj (length h)) h) (self + length h) = Ok r ->
  exists r0, h !! self = Some (ORequest r0)
    /\ r = {| method := method r0; function := function r0;
              url := shift_value (length h) (url r0); logger := logger r0;
              headers := headers r0 + length h; cookies := cookies r0 + length h;
              data := data r0 + length h; kwargs := kwargs r0 |}.
Proof.
  unfold get_request. rewrite deepcopy_lookup.
  destruct (h !! self) as [[| | |r0]|]; try done. simpl. intros [= <-]. eauto.
Qed.

Lemma Template_call_invariant h self m u c hd dt h' inst :
  Template_call h self m u c hd dt = Ok (h', inst) ->
  inst = self + length h
  /\ call_invariant (length h) (override_refs u c hd dt) h h'.
Proof.
  unfold Template_call, deepcopy.
  intros (r & Hr & Hrest)%bind_Ok.
  destruct (deepcopy_request _ _ _ Hr) as (r0 & Hself & Hr0).
  set (n := length h) in *. set (roots := override_refs u c hd dt).
  set (r1 := if truthy m then set_method r (str_of m) else r) in Hrest.
  set (r2 := if value_truthy _ u then set_url r1 u else r1) in Hrest.
  assert (headers r2 = headers r0 + n /\ cookies r2 = cookies r0 + n
          /\ data r2 = data r0 + n
          /\ (url r2 = u \/ url r2 = shift_value n (url r0))) as (Hh & Hc & Hd & Hu).
  { subst r2 r1 r. destruct (truthy m), (value_truthy _ u); simpl; auto. }
  apply bind_Ok in Hrest as (h2 & H2 & Hrest).
  apply bind_Ok in Hrest as (h3 & H3 & Hrest).
  apply bind_Ok in Hrest as (h4 & H4 & [= <- <-]).
  split; [done|].
  assert (call_invariant n roots h (<[self + n := ORequest r2]>
            (h ++ map (shift_obj n) h))) as Hinv1.
  { apply call_invariant_insert; [apply call_invariant_deepcopy|lia|].
    simpl. rewrite Hh, Hc, Hd. intros l' [Hl'|Hl']%elem_of_app.
    - destruct Hu as [Hu|Hu]; rewrite Hu in Hl'.
      + right. unfold roots, override_refs. rewrite elem_of_app. auto.
      + left. destruct (url r0); simpl in Hl'; try (by apply elem_of_nil in Hl').
        apply list_elem_of_singleton in Hl'. lia.
    - left. repeat (apply elem_of_cons in Hl' as [->|Hl']; [lia|]).
      by apply elem_of_nil in Hl'. }
  assert (call_invariant n roots h h2) as Hinv2.
  { destruct (kwarg_truthy c); [|by injection H2 as <-].
    apply bind_Ok in H2 as (other & Hother & Hmerge).
    refine (call_invariant_merge_into _ _ _ _ _ _ _ Hinv1 _ _ Hmerge); [rewrite Hc; lia|].
    intros l' Hl'. unfold roots, override_refs. rewrite !elem_of_app.
    right. left. by eapply refs_plugin_store. }
  assert (call_invariant n roots h h3) as Hinv3.
  { destruct (kwarg_truthy hd); [|by injection H3 as <-].
    apply bind_Ok in H3 as (other & Hother & Hmerge).
    refine (call_invariant_merge_into _ _ _ _ _ _ _ Hinv2 _ _ Hmerge); [rewrite Hh; lia|].
    intros l' Hl'. unfold roots, override_refs. rewrite !elem_of_app.
    right. right. left. by eapply refs_plugin_store. }
  destruct (kwarg_truthy dt); [|by injection H4 as <-].
  refine (call_invariant_update_into _ _ _ _ _ _ _ Hinv3 _ _ H4); [rewrite Hd; lia|].
  intros l' Hl'. unfold roots, override_refs. rewrite !elem_of_app. auto.
Qed.

Lemma closed_refs (h : heap) l o l' :
  closed h = true -> h !! l = Some o -> l' ∈ refs_obj o -> l' < length h.
Proof.
  unfold closed. rewrite forallb_forall. intros Hcl Ho Hl'.
  apply list_elem_of_lookup_2, list_elem_of_In, Hcl in Ho.
  rewrite forallb_forall in Ho. apply list_elem_of_In, Ho in Hl'.
  by apply Nat.ltb_lt.
Qed.

(** C6 (amended).  Calling a template leaves every object that was there
    before the call as it was, the template and what it reaches among
    them; and of those objects the returned instance reaches only the ones
    that an override argument reaches.  So a write to the instance's state
    changes the template, or an instance made before, only where it goes
    through an object that was passed in as an override. *)
Theorem Template_call_shares_only_overrides h self m u c hd dt h' inst :
  closed h = true -> self < length h ->
  Template_call h self m u c hd dt = Ok (h', inst) ->
  (forall l, l < length h -> h' !! l = h !! l)
  /\ (forall l, reach h' self l -> l < length h)
  /\ (forall l, reach h' inst l -> l < length h ->
        exists o, o ∈ override_refs u c hd dt /\ reach h o l).
Proof.
  intros Hcl Hself Hcall.
  destruct (Template_call_invariant _ _ _ _ _ _ _ _ _ Hcall) as (-> & Hold & Hnew).
  split; [done|]. split.
  - intros l Hreach. induction Hreach as [|l o l' _ IH Ho Hl']; [done|].
    rewrite Hold in Ho by done. by eapply closed_refs.
  - intros l Hreach.
    assert (length h <= l \/ exists o, o ∈ override_refs u c hd dt /\ reach h o l)
      as [?|?]; [|lia|done].
    induction Hreach as [|l o l' _ IH Ho Hl']; [left; lia|].
    destruct (decide (length h <= l)) as [Hge|Hlt].
    + destruct (Hnew l o l' Hge Ho Hl') as [?|Hroot]; [by left|].
      right. exists l'. split; [done|apply reach_root].
    + destruct IH as [?|(o0 & Ho0 & Hreach0)]; [lia|].
      right. exists o0. split; [done|].
      rewrite Hold in Ho by lia. by eapply reach_ref.
Qed.

(** C6: two instances of one template, each called with [url=token],
    both reach the plugin [token]; a write to that plugin, which the first
    instance reaches, changes the inputs the second instance lists. *)
Lemma instances_share_an_override_plugin :
  exists h i1 i2,
    Scenario.two_instances = Ok (h, i1, i2)
    /\ i1 <> i2
    /\ reach h i1 0 /\ reach h i2 0
    /\ list_inputs (<[0 := OPlugin (Scenario.fixed "renamed" None)]> h) i2
       <> list_inputs h i2.
Proof.
  eexists _, _, _. split; [vm_compute; reflexivity|].
  split; [discriminate|]. split; [|split].
  - eapply reach_ref; [apply reach_root|reflexivity|]. simpl.
    apply elem_of_cons. by left.
  - eapply reach_ref; [apply reach_root|reflexivity|]. simpl.
    apply elem_of_cons. by left.
  - vm_compute. discriminate.
Qed.

(** C6 (amended), on the template of the scenario called with
    [url=token]. *)
Lemma Template_call_shares_only_overrides_witness :
  exists h' inst,
    Template_call Scenario.template_heap 5 None (VRef 0) KwNone KwNone KwNone
      = Ok (h', inst)
    /\ (forall l, l < length Scenario.template_heap -> h' !! l = Scenario.template_heap !! l)
    /\ (forall l, reach h' 5 l -> l < length Scenario.template_heap)
    /\ (forall l, reach h' inst l -> l < length Scenario.template_heap ->
          exists o, o ∈ override_refs (VRef 0) KwNone KwNone KwNone
            /\ reach Scenario.template_heap o l).
Proof.
  eexists _, _. split; [vm_compute; reflexivity|].
  apply (Template_call_shares_only_overrides Scenario.template_heap 5 None (VRef 0)
           KwNone KwNone KwNone); [reflexivity|simpl; lia|reflexivity].
Defined.

(** ** What a call of a template overrides *)

Lemma for_each_ext {A S} (body1 body2 : S -> A -> result S) l s :
  (forall s x, x ∈ l -> body1 s x = body2 s x) ->
  for_each body1 l s = for_each body2 l s.
Proof.
  revert s. induction l as [|x l IH]; intros s Hext; simpl; [done|].
  rewrite Hext by (apply elem_of_cons; auto).
  destruct (body2 s x); simpl; [|done].
  apply IH. intros ???. apply Hext. apply elem_of_cons; auto.
Qed.

(** The store built from a list of cookies or headers depends on those
    objects only. *)
Lemma plugin_store_agree (h hx : heap) a :
  (forall l, l ∈ refs_kwarg a -> hx !! l = h !! l) ->
  plugin_store hx a = plugin_store h a.
Proof.
  destruct a as [es| |]; simpl; [|done|done]. intros Hagree.
  apply for_each_ext. intros d e He. unfold as_plugin, get_plugin.
  by rewrite Hagree.
Qed.

Lemma dict_set_keys (d : pydict) k v :
  (dict_set d k v).*1 = if decide (k ∈ d.*1) then d.*1 else d.*1 ++ [k].
Proof.
  induction d as [|[k' v'] d IH]; cbn [dict_set].
  - rewrite decide_False; [done|]. apply not_elem_of_nil.
  - destruct (decide (k = k')) as [->|Hne]; rewrite !fmap_cons; cbn [fst].
    + rewrite decide_True; [done|]. apply elem_of_cons; auto.
    + rewrite IH. destruct (decide (k ∈ d.*1)) as [Hin|Hnin].
      * rewrite decide_True; [done|]. apply elem_of_cons; auto.
      * rewrite decide_False; [done|]. rewrite elem_of_cons. by intros [?|?].
Qed.

Lemma dict_set_NoDup (d : pydict) k v : NoDup d.*1 -> NoDup (dict_set d k v).*1.
Proof.
  intros Hnd. rewrite dict_set_keys. destruct (decide (k ∈ d.*1)); [done|].
  apply NoDup_app. split; [done|]. split; [|apply NoDup_singleton].
  intros x Hx ->%list_elem_of_singleton. done.
Qed.

Lemma plugin_store_NoDup h a d : plugin_store h a = Ok d -> NoDup d.*1.
Proof.
  destruct a as [es| |]; simpl; [|done|intros [= <-]; apply NoDup_nil_2].
  apply (for_each_invariant _ (fun d => NoDup d.*1)); [|apply NoDup_nil_2].
  intros d0 e d1 _ Hnd (p & _ & [= <-])%bind_Ok. by apply dict_set_NoDup.
Qed.

(** A name is looked up in a copy as in the original; what is found is the
    copy of what the original has. *)
Lemma dict_get_shift_str n (d : pydict) s :
  dict_get (shift_dict n d) (KStr s) = shift_value n <$> dict_get d (KStr s).
Proof.
  induction d as [|[k v] d IH]; [done|]. cbn [shift_dict map dict_get fst snd].
  destruct k as [s'|l]; cbn [shift_key].
  - destruct (decide (KStr s = KStr s')); [done|apply IH].
  - rewrite !decide_False by done. apply IH.
Qed.

Lemma value_truthy_agree (h hx : heap) u :
  (forall l, l ∈ refs_value u -> hx !! l = h !! l) ->
  value_truthy hx u = value_truthy h u.
Proof.
  destruct u as [| |l]; simpl; [done|done|]. intros Hagree.
  rewrite Hagree; [done|]. apply elem_of_cons. by left.
Qed.

Lemma existing_elem (h : heap) ls l :
  existing h ls = true -> l ∈ ls -> l < length h.
Proof.
  unfold existing. rewrite forallb_forall. intros Hall Hl.
  apply list_elem_of_In, Hall in Hl. by apply Nat.ltb_lt.
Qed.

(** [store.merge(other)], taken apart. *)
Lemma merge_into_Ok (hx hy : heap) l other :
  merge_into hx l other = Ok hy ->
  exists d, hx !! l = Some (OStore d) /\ hy = <[l := OStore (merge d other)]> hx.
Proof.
  unfold merge_into, to_dict.
  destruct (hx !! l) as [[| |d|]|]; try done. simpl. intros [= <-]. eauto.
Qed.

Lemma update_into_Ok (hx hy : heap) l a :
  update_into hx l a = Ok hy ->
  exists d o, hx !! l = Some (ODict d) /\ a = KwDict o
    /\ hy = <[l := ODict (dict_update d o)]> hx.
Proof.
  unfold update_into, get_dict.
  destruct (hx !! l) as [[|d| |]|]; try done. simpl.
  destruct a as [|o|]; try done. intros [= <-]. eauto.
Qed.

(** The optional merge of [Template.__call__]: the store at [l] is merged
    when the override is given, every other object stays as it is. *)
Lemma merge_step (b : bool) (mk : heap -> result pydict) (hx hy : heap) l :
  (if b then other ← mk hx; merge_into hx l other else Ok hx) = Ok hy ->
  (forall l', l' <> l -> hy !! l' = hx !! l')
  /\ (forall l' o, hx !! l' = Some o -> (forall d, o <> OStore d) -> hy !! l' = Some o)
  /\ (if b
      then exists d other, hx !! l = Some (OStore d) /\ mk hx = Ok other
             /\ hy !! l = Some (OStore (merge d other))
      else hy = hx).
Proof.
  destruct b; [|by intros [= <-]].
  intros (other & Hother & (d & Hd & ->)%merge_into_Ok)%bind_Ok.
  split; [|split].
  - intros l' Hne. by rewrite list_lookup_insert_ne.
  - intros l' o Ho Hns. rewrite list_lookup_insert_ne; [done|].
    intros <-. rewrite Hd in Ho. injection Ho as <-. by eapply Hns.
  - exists d, other. split; [done|]. split; [done|].
    apply list_lookup_insert_eq. by eapply lookup_lt_Some.
Qed.

(** The optional update of the body mapping: only a dictionary changes. *)
Lemma update_step (b : bool) (hx hy : heap) l a :
  (if b then update_into hx l a else Ok hx) = Ok hy ->
  forall l' o, hx !! l' = Some o -> (forall d, o <> ODict d) -> hy !! l' = Some o.
Proof.
  destruct b; [|by intros [= <-]].
  intros (d & o0 & Hd & _ & ->)%update_into_Ok l' o Ho Hnd.
  rewrite list_lookup_insert_ne; [done|].
  intros <-. rewrite Hd in Ho. injection Ho as <-. by eapply Hnd.
Qed.

(** The lookups of a merged store. *)
Lemma merged_store_lookup h a other n (base : pydict) nm :
  plugin_store h a = Ok other ->
  dict_get (merge (shift_dict n base) other) (KStr nm) =
  match dict_get other (KStr nm) with
  | Some v => Some v
  | None => shift_value n <$> dict_get base (KStr nm)
  end.
Proof.
  intros Hother. unfold merge.
  rewrite dict_get_update, dict_get_reverse by (by eapply plugin_store_NoDup).
  by rewrite dict_get_shift_str.
Qed.

Lemma shift_obj_store n o d :
  shift_obj n <$> o = Some (OStore d) ->
  exists base, o = Some (OStore base) /\ d = shift_dict n base.
Proof. destruct o as [[| | |]|]; simpl; try done. intros [= <-]. eauto. Qed.

(** C7 (amended).  A call of a template with overrides that are objects
    of the store, on a template that keeps its cookies and its headers in
    two stores: the instance's method and url are the overrides when these
    are given and not empty (otherwise the template's method and the copy of
    its url); with a cookies (headers) override, the instance's store holds
    under each name the override's entry of that name if there is one, and
    else the copy of the template's entry. *)
Theorem Template_call_merges_stores_and_replaces_url
    h self r0 m u c hd dt h' inst :
  h !! self = Some (ORequest r0) ->
  cookies r0 <> headers r0 ->
  existing h (override_refs u c hd dt) = true ->
  Template_call h self m u c hd dt = Ok (h', inst) ->
  exists r',
    h' !! inst = Some (ORequest r')
    /\ method r' = (if truthy m then str_of m else method r0)
    /\ url r' = (if value_truthy h u then u else shift_value (length h) (url r0))
    /\ (kwarg_truthy c = true ->
        exists base other merged,
          to_dict h (cookies r0) = Ok base
          /\ CookieStore h c = Ok other
          /\ to_dict h' (cookies r') = Ok merged
          /\ forall nm, dict_get merged (KStr nm) =
               match dict_get other (KStr nm) with
               | Some v => Some v
               | None => shift_value (length h) <$> dict_get base (KStr nm)
               end)
    /\ (kwarg_truthy hd = true ->
        exists base other merged,
          to_dict h (headers r0) = Ok base
          /\ HeaderStore h hd = Ok other
          /\ to_dict h' (headers r') = Ok merged
          /\ forall nm, dict_get merged (KStr nm) =
               match dict_get other (KStr nm) with
               | Some v => Some v
               | None => shift_value (length h) <$> dict_get base (KStr nm)
               end).
Proof.
  intros Hself Hstores Hex Hcall.
  destruct (Template_call_invariant _ _ _ _ _ _ _ _ _ Hcall) as (-> & _).
  revert Hcall. unfold Template_call, deepcopy.
  intros (r & Hr & Hrest)%bind_Ok.
  destruct (deepcopy_request _ _ _ Hr) as (r0' & Hself' & Hr0).
  rewrite Hself in Hself'. injection Hself' as <-.
  set (n := length h) in *. set (h1 := h ++ map (shift_obj n) h) in *.
  assert (forall l, l ∈ override_refs u c hd dt -> l < n) as Hlt.
  { intros l. by apply existing_elem. }
  assert (value_truthy h1 u = value_truthy h u) as Htruthy.
  { apply value_truthy_agree. intros l Hl. apply deepcopy_lookup_old, Hlt.
    unfold override_refs. rewrite elem_of_app. auto. }
  rewrite Htruthy in Hrest.
  set (r2 := if value_truthy h u then set_url _ u else _) in Hrest.
  assert (method r2 = (if truthy m then str_of m else method r0)
          /\ url r2 = (if value_truthy h u then u else shift_value n (url r0))
          /\ headers r2 = headers r0 + n /\ cookies r2 = cookies r0 + n)
    as (Hm & Hu & Hh & Hc).
  { subst r2 r. destruct (truthy m), (value_truthy h u); simpl; auto. }
  set (hA := <[self + n := ORequest r2]> h1) in Hrest.
  apply bind_Ok in Hrest as (h2 & H2 & Hrest).
  apply bind_Ok in Hrest as (h3 & H3 & Hrest).
  apply bind_Ok in Hrest as (h4 & H4 & [= <-]).
  assert (forall l, l < n -> hA !! l = h !! l) as HoldA.
  { intros l Hl. unfold hA. rewrite list_lookup_insert_ne by lia.
    by apply deepcopy_lookup_old. }
  assert (hA !! (self + n) = Some (ORequest r2)) as HinstA.
  { apply list_lookup_insert_eq. unfold h1. rewrite length_app, length_map.
    apply lookup_lt_Some in Hself. lia. }
  destruct (merge_step _ (fun hx => CookieStore hx c) _ _ _ H2)
    as (Hne2 & Hkeep2 & Hstep2).
  destruct (merge_step _ (fun hx => HeaderStore hx hd) _ _ _ H3)
    as (Hne3 & Hkeep3 & Hstep3).
  pose proof (update_step _ _ _ _ _ H4) as Hkeep4.
  assert (forall l, l < n -> h2 !! l = h !! l) as Hold2.
  { intros l Hl. rewrite Hne2 by (rewrite Hc; lia). by apply HoldA. }
  assert (forall l d, n <= l -> l <> self + n -> hA !! l = Some (OStore d) ->
            exists base, h !! (l - n) = Some (OStore base) /\ d = shift_dict n base)
    as Hcopy.
  { intros l d Hge Hl. unfold hA. rewrite list_lookup_insert_ne by done.
    unfold h1. rewrite lookup_app_r, list_lookup_fmap by done.
    intros (base & Hb & ->)%shift_obj_store. eauto. }
  exists r2. split; [|split; [done|split; [done|split]]].
  - apply Hkeep4; [|done]. apply Hkeep3; [|done]. by apply Hkeep2.
  - intros Hgiven. rewrite Hgiven in Hstep2.
    destruct Hstep2 as (d & other & Hd & Hother & Hmerged).
    destruct (Hcopy (cookies r2) d) as (base & Hbase & ->); [rewrite Hc; lia| |done|].
    { intros Heq. rewrite Heq, HinstA in Hd. done. }
    rewrite Hc in Hbase. replace (cookies r0 + n - n) with (cookies r0) in Hbase by lia.
    assert (CookieStore h c = Ok other) as Hother'.
    { rewrite <- Hother. symmetry. apply plugin_store_agree. intros l Hl.
      apply HoldA, Hlt. unfold override_refs. rewrite !elem_of_app. auto. }
    exists base, other, (merge (shift_dict n base) other).
    split; [unfold to_dict; by rewrite Hbase|]. split; [done|]. split.
    + unfold to_dict.
      rewrite (Hkeep4 _ (OStore (merge (shift_dict n base) other))); [done| |done].
      rewrite Hne3; [done|]. rewrite Hc, Hh. lia.
    + intros nm. by eapply merged_store_lookup.
  - intros Hgiven. rewrite Hgiven in Hstep3.
    destruct Hstep3 as (d & other & Hd & Hother & Hmerged).
    assert (hA !! headers r2 = Some (OStore d)) as HdA.
    { rewrite <- Hne2; [done|]. rewrite Hc, Hh. lia. }
    destruct (Hcopy (headers r2) d) as (base & Hbase & ->); [rewrite Hh; lia| |done|].
    { intros Heq. rewrite Heq, HinstA in HdA. done. }
    rewrite Hh in Hbase. replace (headers r0 + n - n) with (headers r0) in Hbase by lia.
    assert (HeaderStore h hd = Ok other) as Hother'.
    { rewrite <- Hother. symmetry. apply plugin_store_agree. intros l Hl.
      apply Hold2, Hlt. unfold override_refs. rewrite !elem_of_app. auto. }
    exists base, other, (merge (shift_dict n base) other).
    split; [unfold to_dict; by rewrite Hbase|]. split; [done|]. split.
    + unfold to_dict.
      by rewrite (Hkeep4 _ (OStore (merge (shift_dict n base) other))).
    + intros nm. by eapply merged_store_lookup.
Qed.

(** C7: an override of the url (or the method) that is the empty string is
    not taken; the instance keeps the template's. *)
Lemma empty_override_is_not_taken :
  ('(h, inst) ← Template_call Scenario.template_heap 5 (Some EmptyString)
                  (VStr EmptyString) KwNone KwNone KwNone;
   r ← get_request h inst;
   Ok (method r, url r))
  = Ok ("GET", VStr "http://x").
Proof. vm_compute. reflexivity. Qed.

(** C7 (amended), on a template with the cookie [a], called with the
    method [POST], the url [http://y] and the cookies [b] and another
    [a]. *)
Lemma Template_call_merges_stores_and_replaces_url_witness :
  exists h' inst,
    Template_call Scenario.cookie_template_heap 7 (Some "POST") (VStr "http://y")
      (KwPlugins [1; 2]) KwNone KwNone = Ok (h', inst)
    /\ exists r',
        h' !! inst = Some (ORequest r')
        /\ method r' = "POST"
        /\ url r' = VStr "http://y"
        /\ (kwarg_truthy (KwPlugins [1; 2]) = true ->
            exists base other merged,
              to_dict Scenario.cookie_template_heap 4 = Ok base
              /\ CookieStore Scenario.cookie_template_heap (KwPlugins [1; 2]) = Ok other
              /\ to_dict h' (cookies r') = Ok merged
              /\ forall nm, dict_get merged (KStr nm) =
                   match dict_get other (KStr nm) with
                   | Some v => Some v
                   | None => shift_value 8 <$> dict_get base (KStr nm)
                   end)
        /\ (kwarg_truthy KwNone = true ->
            exists base other merged,
              to_dict Scenario.cookie_template_heap 3 = Ok base
              /\ HeaderStore Scenario.cookie_template_heap KwNone = Ok other
              /\ to_dict h' (headers r') = Ok merged
              /\ forall nm, dict_get merged (KStr nm) =
                   match dict_get other (KStr nm) with
                   | Some v => Some v
                   | None => shift_value 8 <$> dict_get base (KStr nm)
                   end).
Proof.
  eexists _, _. split; [vm_compute; reflexivity|].
  apply (Template_call_merges_stores_and_replaces_url
           Scenario.cookie_template_heap 7 Scenario.cookie_template
           (Some "POST") (VStr "http://y") (KwPlugins [1; 2]) KwNone KwNone);
    [reflexivity|discriminate|reflexivity|reflexivity].
Defined.

(** * Further properties *)

(** ** Cookies and headers of names known in advance *)

(** A loop over the keys of a dictionary each of whose turns either files
    a value under its own key or removes the key. *)
Lemma for_each_resolves (body : pydict -> key -> result pydict)
    (d : pydict) (res : key -> option value) ks :
  NoDup ks ->
  (forall c k, k ∈ ks -> dict_get c k = dict_get d k ->
     body c k = Ok (match res k with
                    | Some v => dict_set c k v
                    | None => dict_remove c k
                    end)) ->
  forall c, (forall k, k ∈ ks -> dict_get c k = dict_get d k) ->
  exists out,
    for_each body ks c = Ok out
    /\ forall k, dict_get out k = if decide (k ∈ ks) then res k else dict_get c k.
Proof.
  induction ks as [|k0 ks IH]; intros Hnd Hbody c Hc.
  - exists c. split; [done|]. intros k. rewrite decide_False; [done|].
    apply not_elem_of_nil.
  - apply NoDup_cons in Hnd as [Hk0 Hnd].
    pose proof (Hbody c k0 (proj2 (elem_of_cons _ _ _) (or_introl eq_refl))
                  (Hc k0 (proj2 (elem_of_cons _ _ _) (or_introl eq_refl)))) as Hturn.
    set (c1 := match res k0 with
               | Some v => dict_set c k0 v
               | None => dict_remove c k0
               end) in Hturn.
    assert (forall k, k <> k0 -> dict_get c1 k = dict_get c k) as Hc1.
    { intros k Hne. subst c1. destruct (res k0).
      - by apply dict_get_set_ne.
      - by apply dict_get_remove_ne. }
    assert (dict_get c1 k0 = res k0) as Hc10.
    { subst c1. destruct (res k0); [apply dict_get_set_eq|apply dict_get_remove_eq]. }
    destruct (IH Hnd) with (c := c1) as (out & Hloop & Hout).
    + intros c' k Hk. apply Hbody. apply elem_of_cons; auto.
    + intros k Hk. rewrite Hc1 by (intros ->; done). apply Hc. apply elem_of_cons; auto.
    + exists out. simpl. rewrite Hturn. simpl. split; [done|].
      intros k. rewrite Hout. destruct (decide (k ∈ ks)) as [Hin|Hnin].
      * rewrite decide_True; [done|]. apply elem_of_cons; auto.
      * destruct (decide (k = k0)) as [->|Hne].
        -- rewrite decide_True; [done|]. apply elem_of_cons; auto.
        -- rewrite decide_False; [by apply Hc1|]. rewrite elem_of_cons. by intros [?|?].
Qed.

Lemma named_store_key h d k :
  named_store h d = true -> k ∈ d.*1 ->
  exists v p, dict_get d k = Some v /\ get_plugin h v = Some p
    /\ k = KStr (name p) /\ name_not_known_in_advance p = false.
Proof.
  unfold named_store. rewrite forallb_forall. intros Hall Hin.
  destruct (dict_get_is_Some _ _ Hin) as [v Hv]. exists v.
  pose proof (dict_get_elem_of _ _ _ Hv) as Hn.
  apply list_elem_of_In, Hall in Hn. unfold named_entry in Hn. simpl in Hn.
  destruct (get_plugin h v) as [p|]; [|done]. exists p.
  apply andb_prop in Hn as [Hk Hflag].
  apply bool_decide_eq_true in Hk. apply negb_true_iff in Hflag. done.
Qed.


Section Slots.

Variable colors : string -> string.
Variable input : string -> string.

(** X1.  A cookie store whose cookies are filed under their own names,
    known in advance: [process_cookies] returns a mapping, which has under
    each name the cookie's value, or the operator's reply when that is
    empty, and has no entry for a cookie where both are empty. *)
Theorem process_cookies_resolves_or_drops h raw_cookies d ud :
  h !! raw_cookies = Some (OStore d) ->
  NoDup d.*1 ->
  named_store h d = true ->
  exists out,
    process_cookies colors input h raw_cookies ud = Ok out
    /\ forall k, dict_get out k
                 = dict_get d k ≫= resolve_slot colors input "Cookie" h ud.
Proof.
  intros Hraw Hnd Hnamed. unfold process_cookies, to_dict. rewrite Hraw. simpl.
  destruct (for_each_resolves (process_cookies_body colors input h d ud) d
              (fun k => dict_get d k ≫= resolve_slot colors input "Cookie" h ud)
              (d.*1) Hnd) with (c := d) as (out & Hloop & Hout).
  - intros c k Hk Hck.
    destruct (named_store_key _ _ _ Hnamed Hk) as (v & p & Hv & Hp & -> & Hflag).
    unfold process_cookies_body, dict_getitem, as_plugin, resolve_slot.
    rewrite Hv. simpl. rewrite Hp. simpl. rewrite Hflag.
    destruct (truthy _); simpl; [done|].
    unfold dict_del. by rewrite Hck, Hv.
  - done.
  - exists out. split; [done|]. intros k. rewrite Hout.
    destruct (decide (k ∈ d.*1)) as [Hin|Hnin]; [done|].
    by rewrite dict_get_None.
Qed.


End Slots.

(** X1, on the cookies [a] (nothing) and [b]. *)
Lemma process_cookies_resolves_or_drops_witness :
  exists out,
    process_cookies Scenario.no_colors Scenario.enter_only More.slots_heap 3 [] = Ok out
    /\ forall k, dict_get out k
         = dict_get [(KStr "a", VRef 0); (KStr "b", VRef 1)] k
           ≫= resolve_slot Scenario.no_colors Scenario.enter_only "Cookie"
                More.slots_heap [].
Proof.
  apply (process_cookies_resolves_or_drops Scenario.no_colors Scenario.enter_only
           More.slots_heap 3 [(KStr "a", VRef 0); (KStr "b", VRef 1)] []);
    [reflexivity| |reflexivity].
  apply (bool_decide_unpack _). vm_compute. exact I.
Defined.


(** ** Body groups without nested dictionaries *)

Lemma dict_set_id (d : pydict) k v : dict_get d k = Some v -> dict_set d k v = d.
Proof.
  induction d as [|[k' v'] d IH]; simpl; [done|].
  destruct (decide (k = k')) as [->|Hne].
  - by intros [= ->].
  - intros H. by rewrite IH.
Qed.

Lemma dict_remove_keys (d : pydict) k : (dict_remove d k).*1 = filter (fun k' => k <> k') d.*1.
Proof.
  unfold dict_remove. induction d as [|[k' v'] d IH]; [done|].
  rewrite fmap_cons, !filter_cons. simpl.
  destruct (decide (k <> k')); [by rewrite fmap_cons, IH|done].
Qed.

Lemma dict_remove_NoDup (d : pydict) k : NoDup d.*1 -> NoDup (dict_remove d k).*1.
Proof. intros Hnd. rewrite dict_remove_keys. by apply NoDup_filter. Qed.

Lemma elem_of_dict_get (d : pydict) k v :
  NoDup d.*1 -> (k, v) ∈ d -> dict_get d k = Some v.
Proof.
  induction d as [|[k' v'] d IH]; [by intros _ ?%elem_of_nil|].
  rewrite fmap_cons, NoDup_cons. intros [Hnin Hnd] [[= -> ->]|Hin]%elem_of_cons; simpl.
  - by rewrite decide_True.
  - rewrite decide_False; [by apply IH|]. intros ->. apply Hnin.
    apply list_elem_of_fmap. by exists (k', v).
Qed.

(** The values of a dictionary after an update or a removal. *)
Lemma dict_set_values (d : pydict) k v x :
  x ∈ (dict_set d k v).*2 -> x = v \/ x ∈ d.*2.
Proof.
  induction d as [|[k' v'] d IH]; cbn [dict_set].
  - rewrite fmap_cons. intros [->|?%elem_of_nil]%elem_of_cons; auto. done.
  - destruct (decide (k = k')); rewrite !fmap_cons, !elem_of_cons; cbn [snd]; [tauto|].
    intros [?|[?|?]%IH]; auto.
Qed.

Lemma dict_remove_values (d : pydict) k x : x ∈ (dict_remove d k).*2 -> x ∈ d.*2.
Proof.
  unfold dict_remove. intros ([k' v'] & -> & Hin%list_elem_of_filter)%list_elem_of_fmap.
  apply list_elem_of_fmap. exists (k', v'). tauto.
Qed.

Lemma dict_get_value (d : pydict) k v : dict_get d k = Some v -> v ∈ d.*2.
Proof.
  intros Hin%dict_get_elem_of. apply list_elem_of_fmap. by exists (k, v).
Qed.

Section Flat.

Variable colors : string -> string.
Variable input : string -> string.

(** What a turn leaves in the dictionary was there before, or is a string. *)
Lemma flat_turn_values h ud d k d' x :
  flat_turn colors input h ud d k = Ok d' ->
  x ∈ d'.*2 -> x ∈ d.*2 \/ exists s, x = VStr s.
Proof.
  unfold flat_turn, dict_getitem. destruct (dict_get d k) as [v|] eqn:Hv; [|done].
  simpl. intros (d1 & H1 & Hkey)%bind_Ok Hx.
  assert (forall y, y ∈ d1.*2 -> y ∈ d.*2 \/ exists s, y = VStr s) as Hd1.
  { intros y Hy. destruct (get_plugin h v) as [p|]; [|injection H1 as <-; auto].
    destruct (negb _).
    - apply dict_del_Ok in H1 as ->. left. by eapply dict_remove_values.
    - injection H1 as <-. apply dict_set_values in Hy as [->|?]; eauto. }
  destruct (get_key_plugin h k) as [p|]; [|injection Hkey as <-; auto].
  apply bind_Ok in Hkey as ([nv d2] & Hpop & Hkey). unfold dict_pop in Hpop.
  destruct (dict_get d1 k) as [nv'|] eqn:Hnv; [|done]. injection Hpop as <- <-.
  destruct (negb _).
  - apply dict_del_Ok in Hkey as ->. apply Hd1.
    by eapply dict_remove_values, dict_remove_values.
  - injection Hkey as <-. apply dict_set_values in Hx as [->|Hx].
    + by eapply Hd1, dict_get_value.
    + by eapply Hd1, dict_remove_values.
Qed.

(** A turn depends on the store through the plugins it looks up only. *)
Lemma flat_turn_agree h1 h2 ud d k :
  (forall v, v ∈ d.*2 -> get_plugin h1 v = get_plugin h2 v) ->
  get_key_plugin h1 k = get_key_plugin h2 k ->
  flat_turn colors input h1 ud d k = flat_turn colors input h2 ud d k.
Proof.
  intros Hv Hk. unfold flat_turn, dict_getitem.
  destruct (dict_get d k) as [v|] eqn:Hd; [|done]. simpl.
  rewrite (Hv v) by by eapply dict_get_value. by rewrite Hk.
Qed.

Lemma flat_loop_agree h1 h2 ud (d0 : pydict) ks : forall d,
  (forall v, v ∈ d0.*2 -> get_plugin h1 v = get_plugin h2 v) ->
  (forall s, get_plugin h1 (VStr s) = get_plugin h2 (VStr s)) ->
  (forall k, k ∈ ks -> get_key_plugin h1 k = get_key_plugin h2 k) ->
  (forall v, v ∈ d.*2 -> v ∈ d0.*2 \/ exists s, v = VStr s) ->
  for_each (flat_turn colors input h1 ud) ks d
  = for_each (flat_turn colors input h2 ud) ks d.
Proof.
  induction ks as [|k ks IH]; intros d Hv0 Hs Hk Hd; [done|]. simpl.
  rewrite (flat_turn_agree h1 h2).
  - destruct (flat_turn colors input h2 ud d k) as [d'|e] eqn:Hturn; [|done]. simpl.
    apply IH; try done.
    + intros k' Hk'. apply Hk. apply elem_of_cons; auto.
    + intros v Hv. destruct (flat_turn_values _ _ _ _ _ _ Hturn Hv) as [?|?]; auto.
  - intros v [?|[s ->]]%Hd; auto.
  - apply Hk. apply elem_of_cons; auto.
Qed.

(** On a dictionary without nested dictionaries the turn of
    [traverse_dict] is [flat_turn]: it writes the new mapping to the
    dictionary object and to nothing else. *)
Lemma traverse_dict_body_flat rec ud l (h : heap) d0 d k :
  h !! l = Some (ODict d0) ->
  (forall v, v ∈ d.*2 -> flat_value h v = true) ->
  traverse_dict_body colors input rec ud l (<[l := ODict d]> h) k
  = d' ← flat_turn colors input h ud d k; Ok (<[l := ODict d']> h).
Proof.
  intros Hl Hflat.
  assert (l < length h) as Hlen by by eapply lookup_lt_Some.
  assert (forall v, get_plugin (<[l := ODict d]> h) v = get_plugin h v) as Hgp.
  { intros [| |l']; try done. unfold get_plugin.
    destruct (decide (l' = l)) as [->|Hne].
    - by rewrite list_lookup_insert_eq, Hl.
    - by rewrite list_lookup_insert_ne. }
  assert (forall dx v, get_plugin (<[l := ODict dx]> (<[l := ODict d]> h)) v
                       = get_plugin h v) as Hgp2.
  { intros dx [| |l']; try done. unfold get_plugin.
    destruct (decide (l' = l)) as [->|Hne].
    - rewrite list_lookup_insert_eq, Hl; [done|]. by rewrite length_insert.
    - by rewrite !list_lookup_insert_ne. }
  unfold traverse_dict_body, flat_turn, get_dict, set_dict.
  rewrite list_lookup_insert_eq by done. cbn [mbind result_bind].
  unfold dict_getitem. destruct (dict_get d k) as [v|] eqn:Hv; [|done].
  cbn [mbind result_bind]. rewrite Hgp.
  assert (forall d1 : pydict,
    match get_key_plugin (<[l := ODict d1]> h) k with
    | Some p =>
        get_dict (<[l := ODict d1]> h) l
        ≫= λ d2, dict_pop d2 k
        ≫= λ x, let '(new_value, d3) := x in
           if negb (truthy (value_or_prompt colors input "Key" (name p) (get_value p ud)))
           then dict_del d3 k ≫= λ d', Ok (<[l := ODict d']> (<[l := ODict d1]> h))
           else Ok (<[l := ODict (dict_set d3
                       (KStr (str_of (value_or_prompt colors input "Key" (name p)
                                        (get_value p ud)))) new_value)]>
                      (<[l := ODict d1]> h))
    | None => Ok (<[l := ODict d1]> h)
    end
    = match get_key_plugin h k with
      | Some p =>
          dict_pop d1 k
          ≫= λ x, let '(new_value, d3) := x in
             if negb (truthy (value_or_prompt colors input "Key" (name p) (get_value p ud)))
             then dict_del d3 k
             else Ok (dict_set d3
                        (KStr (str_of (value_or_prompt colors input "Key" (name p)
                                         (get_value p ud)))) new_value)
      | None => Ok d1
      end ≫= λ d', Ok (<[l := ODict d']> h)) as Hkey.
  { intros d1.
    assert (get_key_plugin (<[l := ODict d1]> h) k = get_key_plugin h k) as ->.
    { destruct k as [s|l']; [done|]. unfold get_key_plugin, get_plugin.
      destruct (decide (l' = l)) as [->|Hne].
      - by rewrite list_lookup_insert_eq, Hl.
      - by rewrite list_lookup_insert_ne. }
    destruct (get_key_plugin h k) as [p|]; [|done].
    unfold get_dict. rewrite list_lookup_insert_eq by done. cbn [mbind result_bind].
    destruct (dict_pop d1 k) as [[nv d3]|e]; [|done]. cbn [mbind result_bind].
    destruct (negb _).
    - destruct (dict_del d3 k); [|done]. cbn [mbind result_bind].
      by rewrite list_insert_insert_eq.
    - cbn [mbind result_bind]. by rewrite list_insert_insert_eq. }
  destruct (get_plugin h v) as [p|] eqn:Hp.
  - destruct (negb _).
    + destruct (dict_del d k) as [d1|e]; [|done]. cbn [mbind result_bind].
      rewrite list_insert_insert_eq. apply Hkey.
    + cbn [mbind result_bind]. rewrite list_insert_insert_eq. apply Hkey.
  - assert (match v with
            | VRef l' => match <[l := ODict d]> h !! l' with
                         | Some (ODict _) => rec (<[l := ODict d]> h) l'
                         | _ => Ok (<[l := ODict d]> h)
                         end
            | _ => Ok (<[l := ODict d]> h)
            end = Ok (<[l := ODict d]> h)) as ->.
    { destruct v as [| |l']; try done.
      apply dict_get_value, Hflat in Hv. simpl in Hv.
      apply bool_decide_eq_true in Hv as [q Hq]. unfold get_plugin in Hp, Hq.
      by rewrite Hq in Hp. }
    cbn [mbind result_bind]. apply Hkey.
Qed.

Lemma flat_dict_value h d v :
  flat_dict h d = true -> v ∈ d.*2 -> flat_value h v = true.
Proof.
  unfold flat_dict. intros [Hall _]%andb_prop ([k v'] & -> & Hin)%list_elem_of_fmap.
  rewrite forallb_forall in Hall. apply list_elem_of_In, Hall in Hin.
  by apply andb_prop in Hin as [_ ?].
Qed.

Lemma flat_dict_key h d k :
  flat_dict h d = true -> k ∈ d.*1 -> flat_key h k = true.
Proof.
  unfold flat_dict. intros [Hall _]%andb_prop ([k' v] & -> & Hin)%list_elem_of_fmap.
  rewrite forallb_forall in Hall. apply list_elem_of_In, Hall in Hin.
  by apply andb_prop in Hin as [? _].
Qed.

Lemma flat_dict_NoDup h d : flat_dict h d = true -> NoDup d.*1.
Proof. unfold flat_dict. intros [_ H]%andb_prop. by apply bool_decide_eq_true in H. Qed.

Lemma traverse_loop_flat rec ud l (h : heap) d0 ks : forall dc,
  h !! l = Some (ODict d0) ->
  (forall v, v ∈ dc.*2 -> flat_value h v = true) ->
  for_each (traverse_dict_body colors input rec ud l) ks (<[l := ODict dc]> h)
  = d' ← for_each (flat_turn colors input h ud) ks dc; Ok (<[l := ODict d']> h).
Proof.
  induction ks as [|k ks IH]; intros dc Hl Hflat; [done|].
  cbn [for_each]. rewrite (traverse_dict_body_flat _ _ _ _ d0) by done.
  destruct (flat_turn colors input h ud dc k) as [d1|e] eqn:Hturn; [|done].
  cbn [mbind result_bind]. apply IH; [done|].
  intros v Hv. destruct (flat_turn_values _ _ _ _ _ _ Hturn Hv) as [?|[s ->]]; auto.
Qed.

(** [traverse_dict] on a dictionary without nested dictionaries: the loop
    of [flat_turn] over the keys, and one write of the result. *)
Lemma traverse_dict_flat depth (h : heap) l d ud :
  h !! l = Some (ODict d) ->
  (forall v, v ∈ d.*2 -> flat_value h v = true) ->
  traverse_dict colors input (S depth) h l ud
  = d' ← for_each (flat_turn colors input h ud) d.*1 d; Ok (<[l := ODict d']> h).
Proof.
  intros Hl Hflat. cbn [traverse_dict]. unfold get_dict at 1. rewrite Hl.
  cbn [mbind result_bind].
  rewrite <- (traverse_loop_flat
                (fun h' l' => traverse_dict colors input depth h' l' ud)
                ud l h d (d.*1) d Hl Hflat).
  by rewrite list_insert_id.
Qed.

(** A turn for a string key: the value is resolved, or dropped. *)
Lemma flat_turn_string_key h ud (d : pydict) s v :
  dict_get d (KStr s) = Some v ->
  flat_turn colors input h ud d (KStr s)
  = Ok (match resolve_slot colors input "Value" h ud v with
        | Some v' => dict_set d (KStr s) v'
        | None => dict_remove d (KStr s)
        end).
Proof.
  intros Hv. unfold flat_turn, dict_getitem, resolve_slot. rewrite Hv. simpl.
  destruct (get_plugin h v) as [p|].
  - destruct (truthy _); simpl; [done|]. unfold dict_del. by rewrite Hv.
  - simpl. by rewrite dict_set_id.
Qed.

Lemma string_keys_elem d k : string_keys d = true -> k ∈ d.*1 -> exists s, k = KStr s.
Proof.
  unfold string_keys. rewrite forallb_forall.
  intros Hall ([k' v] & -> & Hin)%list_elem_of_fmap.
  apply list_elem_of_In, Hall in Hin. simpl in *. destruct k'; [eauto|done].
Qed.

(** The loop over a dictionary with string keys resolves every value and
    drops the ones without. *)
Lemma flat_loop_string_keys h ud (d : pydict) :
  NoDup d.*1 -> string_keys d = true ->
  exists d',
    for_each (flat_turn colors input h ud) d.*1 d = Ok d'
    /\ forall k, dict_get d' k = dict_get d k ≫= resolve_slot colors input "Value" h ud.
Proof.
  intros Hnd Hstr.
  destruct (for_each_resolves (flat_turn colors input h ud) d
              (fun k => dict_get d k ≫= resolve_slot colors input "Value" h ud)
              (d.*1) Hnd) with (c := d) as (out & Hloop & Hout).
  - intros c k Hk Hck. destruct (string_keys_elem _ _ Hstr Hk) as [s ->].
    destruct (dict_get_is_Some _ _ Hk) as [v Hv]. rewrite Hv in Hck.
    rewrite (flat_turn_string_key _ _ _ _ v) by done. by rewrite Hv.
  - done.
  - exists out. split; [done|]. intros k. rewrite Hout.
    destruct (decide (k ∈ d.*1)) as [Hin|Hnin]; [done|]. by rewrite dict_get_None.
Qed.

(** What is true of a dictionary half way through the loop: an entry is
    resolved, or its key is still to come. *)
Lemma flat_loop_plain h ud ks : forall (d d' : pydict),
  NoDup d.*1 ->
  (forall k v, dict_get d k = Some v ->
     (exists s, k = KStr s) /\ get_plugin h v = None /\ flat_value h v = true
     \/ k ∈ ks /\ flat_key h k = true /\ flat_value h v = true) ->
  for_each (flat_turn colors input h ud) ks d = Ok d' ->
  NoDup d'.*1
  /\ forall k v, dict_get d' k = Some v ->
       (exists s, k = KStr s) /\ get_plugin h v = None /\ flat_value h v = true.
Proof.
  induction ks as [|k0 ks IH]; intros d d' Hnd Hinv.
  - intros [= <-]. split; [done|]. intros k v Hkv.
    destruct (Hinv k v Hkv) as [?|[?%elem_of_nil _]]; done.
  - cbn [for_each]. intros (d2 & Hturn & Hloop)%bind_Ok.
    apply (IH d2 d'); [| |done]; clear IH Hloop.
    + revert Hturn. unfold flat_turn, dict_getitem.
      destruct (dict_get d k0) as [v0|]; [|done]. simpl.
      intros (d1 & H1 & Hkey)%bind_Ok.
      assert (NoDup d1.*1) as Hnd1.
      { destruct (get_plugin h v0); [|by injection H1 as <-].
        destruct (negb _).
        - apply dict_del_Ok in H1 as ->. by apply dict_remove_NoDup.
        - injection H1 as <-. by apply dict_set_NoDup. }
      destruct (get_key_plugin h k0); [|by injection Hkey as <-].
      apply bind_Ok in Hkey as ([nv d3] & Hpop & Hkey). unfold dict_pop in Hpop.
      destruct (dict_get d1 k0); [|done]. injection Hpop as _ <-.
      destruct (negb _).
      * apply dict_del_Ok in Hkey as ->. by apply dict_remove_NoDup, dict_remove_NoDup.
      * injection Hkey as <-. by apply dict_set_NoDup, dict_remove_NoDup.
    + intros k v Hkv. revert Hturn Hkv. unfold flat_turn, dict_getitem.
      destruct (dict_get d k0) as [v0|] eqn:Hv0; [|done]. simpl.
      intros (d1 & H1 & Hkey)%bind_Ok.
      (* the dictionary after the value's half of the turn *)
      assert (forall k v, dict_get d1 k = Some v ->
                if decide (k = k0)
                then get_plugin h v = None /\ flat_value h v = true
                else dict_get d k = Some v) as Hd1.
      { intros k1 v1 Hk1. destruct (decide (k1 = k0)) as [->|Hne].
        - destruct (get_plugin h v0) as [p|] eqn:Hp.
          + destruct (negb _).
            * apply dict_del_Ok in H1 as ->. by rewrite dict_get_remove_eq in Hk1.
            * injection H1 as <-. rewrite dict_get_set_eq in Hk1. by injection Hk1 as <-.
          + injection H1 as <-. rewrite Hv0 in Hk1. injection Hk1 as <-.
            split; [done|]. destruct (Hinv k0 v0 Hv0) as [(_ & _ & ?)|(_ & _ & ?)]; done.
        - destruct (get_plugin h v0) as [p|].
          + destruct (negb _).
            * apply dict_del_Ok in H1 as ->. by rewrite dict_get_remove_ne in Hk1.
            * injection H1 as <-. by rewrite dict_get_set_ne in Hk1.
          + by injection H1 as <-. }
      assert (forall k v, dict_get d k = Some v -> k <> k0 ->
                (exists s, k = KStr s) /\ get_plugin h v = None /\ flat_value h v = true
                \/ k ∈ ks /\ flat_key h k = true /\ flat_value h v = true) as Hrest.
      { intros k1 v1 Hk1 Hne. destruct (Hinv k1 v1 Hk1) as [?|[Hin ?]]; [by left|].
        right. split; [|done]. apply elem_of_cons in Hin as [?|?]; done. }
      destruct (get_key_plugin h k0) as [p|] eqn:Hkp.
      * apply bind_Ok in Hkey as ([nv d3] & Hpop & Hkey). unfold dict_pop in Hpop.
        destruct (dict_get d1 k0) as [nv'|] eqn:Hnv; [|done]. injection Hpop as <- <-.
        pose proof (Hd1 k0 nv' Hnv) as Hnvp. rewrite decide_True in Hnvp by done.
        destruct (negb _).
        -- apply dict_del_Ok in Hkey as ->. intros Hkv.
           destruct (decide (k = k0)) as [->|Hne];
             [by rewrite dict_get_remove_eq in Hkv|].
           rewrite !dict_get_remove_ne in Hkv by done.
           pose proof (Hd1 k v Hkv) as Hkv'. rewrite decide_False in Hkv' by done.
           by apply Hrest.
        -- injection Hkey as <-. rewrite dict_get_set.
           destruct (decide (KStr _ = k)) as [<-|Hne1].
           ++ intros [= <-]. left. split; [eauto|done].
           ++ intros Hkv. destruct (decide (k = k0)) as [->|Hne];
                [by rewrite dict_get_remove_eq in Hkv|].
              rewrite dict_get_remove_ne in Hkv by done.
              pose proof (Hd1 k v Hkv) as Hkv'. rewrite decide_False in Hkv' by done.
              by apply Hrest.
      * injection Hkey as <-. intros Hkv. pose proof (Hd1 k v Hkv) as Hkv'.
        destruct (decide (k = k0)) as [->|Hne]; [|by apply Hrest].
        left. split; [|done]. destruct k0 as [s|l0]; [eauto|].
        exfalso. destruct (Hinv (KObj l0) v0 Hv0) as [([s [=]] & _)|(_ & Hfk & _)].
        unfold flat_key in Hfk. apply bool_decide_eq_true in Hfk as [q Hq].
        by rewrite Hq in Hkp.
Qed.

Lemma flat_value_app (h ext : heap) v :
  flat_value h v = true ->
  flat_value (h ++ ext) v = true /\ get_plugin (h ++ ext) v = get_plugin h v.
Proof.
  destruct v as [| |l]; simpl; [done|done|].
  intros [p Hp]%bool_decide_eq_true. unfold get_plugin in *.
  destruct (h !! l) as [o|] eqn:Hl; [|done].
  rewrite lookup_app_l by by eapply lookup_lt_Some. rewrite Hl.
  split; [|done]. apply bool_decide_eq_true. by rewrite Hp.
Qed.

Lemma flat_key_app (h ext : heap) k :
  flat_key h k = true -> get_key_plugin (h ++ ext) k = get_key_plugin h k.
Proof.
  destruct k as [s|l]; [done|]. intros Hk.
  by apply (flat_value_app h ext (VRef l)) in Hk as [_ ?].
Qed.

(** The turn of [process_data] for a group without nested dictionaries:
    one new dictionary, which holds what the loop of [flat_turn] makes of
    the group's entries. *)
Lemma process_data_body_flat ud (h ext : heap) acc k s d :
  h !! s = Some (OStore d) -> flat_dict h d = true ->
  process_data_body colors input ud (h ++ ext, acc) (k, VRef s)
  = d' ← for_each (flat_turn colors input h ud) d.*1 d;
    Ok ((h ++ ext) ++ [ODict d'], dict_set acc k (VRef (length (h ++ ext)))).
Proof.
  intros Hs Hflat. cbn [process_data_body alloc]. unfold to_dict.
  rewrite lookup_app_l by by eapply lookup_lt_Some. rewrite Hs.
  cbn [mbind result_bind]. change recursion_limit with (S 999).
  set (hc := h ++ ext).
  assert ((hc ++ [ODict d]) !! length hc = Some (ODict d)) as Hnew.
  { rewrite lookup_app_r by lia. by rewrite Nat.sub_diag. }
  assert (forall v, v ∈ d.*2 ->
            flat_value (hc ++ [ODict d]) v = true
            /\ get_plugin (hc ++ [ODict d]) v = get_plugin h v) as Hvals.
  { intros v Hv. subst hc. rewrite <- app_assoc. apply flat_value_app.
    by eapply flat_dict_value. }
  rewrite (traverse_dict_flat _ _ _ d) by (done || intros v Hv; by apply Hvals).
  rewrite (flat_loop_agree (hc ++ [ODict d]) h ud d).
  - destruct (for_each _ _ d) as [d'|e]; [|done]. cbn [mbind result_bind].
    rewrite insert_app_r_alt by lia. by rewrite Nat.sub_diag.
  - intros v Hv. by apply Hvals.
  - done.
  - intros k' Hk'. subst hc. rewrite <- app_assoc. apply flat_key_app.
    by eapply flat_dict_key.
  - auto.
Qed.

(** The loop of [process_data] over groups without nested dictionaries. *)
Lemma process_data_flat_loop ud (h : heap) items : forall ext acc,
  (forall k v, (k, v) ∈ items ->
     exists s d, v = VRef s /\ h !! s = Some (OStore d) /\ flat_dict h d = true) ->
  match for_each (process_data_body colors input ud) items (h ++ ext, acc) with
  | Ok (h', out) =>
      (exists ext', h' = h ++ ext ++ ext')
      /\ forall g,
           match dict_get (reverse items) g with
           | Some v => exists l s d d',
               v = VRef s /\ h !! s = Some (OStore d) /\ flat_dict h d = true
               /\ dict_get out g = Some (VRef l) /\ h' !! l = Some (ODict d')
               /\ for_each (flat_turn colors input h ud) d.*1 d = Ok d'
           | None => dict_get out g = dict_get acc g
           end
  | Raise e =>
      exists k s d, (k, VRef s) ∈ items /\ h !! s = Some (OStore d)
        /\ for_each (flat_turn colors input h ud) d.*1 d = Raise e
  end.
Proof.
  induction items as [|[k v] items IH]; intros ext acc Hitems.
  - simpl. split; [exists []; by rewrite app_nil_r|done].
  - destruct (Hitems k v) as (s & d & -> & Hs & Hflat); [apply elem_of_cons; auto|].
    cbn [for_each]. rewrite (process_data_body_flat _ _ _ _ _ _ d) by done.
    destruct (for_each (flat_turn colors input h ud) d.*1 d) as [d'|e] eqn:Hd.
    2:{ cbn [mbind result_bind]. exists k, s, d. split; [apply elem_of_cons; auto|done]. }
    cbn [mbind result_bind]. rewrite <- app_assoc.
    specialize (IH (ext ++ [ODict d']) (dict_set acc k (VRef (length (h ++ ext))))).
    destruct (for_each _ items _) as [[h' out]|e].
    + destruct IH as ([ext' ->] & Hout).
      { intros k' v' Hin. apply (Hitems k' v'). apply elem_of_cons; auto. }
      split; [exists ([ODict d'] ++ ext'); by rewrite <- !app_assoc|].
      intros g. specialize (Hout g).
      rewrite reverse_cons, dict_get_app.
      destruct (dict_get (reverse items) g) as [v'|]; [done|].
      simpl. rewrite dict_get_set in Hout. destruct (decide (g = k)) as [->|Hne].
      * rewrite decide_True in Hout by done. exists (length (h ++ ext)), s, d, d'.
        repeat split; try done.
        replace (h ++ (ext ++ [ODict d']) ++ ext')
          with ((h ++ ext) ++ ODict d' :: ext') by by rewrite <- !app_assoc.
        rewrite lookup_app_r by lia. by rewrite Nat.sub_diag.
      * by rewrite decide_False in Hout by done.
    + destruct IH as (k' & s' & d0 & Hin & Hrest).
      { intros k' v' Hin. apply (Hitems k' v'). apply elem_of_cons; auto. }
      exists k', s', d0. split; [apply elem_of_cons; auto|done].
Qed.

Lemma flat_groups_elem h raw k v :
  flat_groups h raw = true -> (k, v) ∈ raw ->
  exists s d, v = VRef s /\ h !! s = Some (OStore d) /\ flat_dict h d = true.
Proof.
  unfold flat_groups. rewrite forallb_forall. intros Hall Hin.
  apply list_elem_of_In, Hall in Hin. simpl in Hin.
  destruct v as [| |s]; try done. destruct (h !! s) as [[]|] eqn:Hs; try done.
  eauto.
Qed.

Lemma string_keyed_groups_elem h raw k v :
  string_keyed_groups h raw = true -> (k, v) ∈ raw ->
  exists s d, v = VRef s /\ h !! s = Some (OStore d) /\ flat_dict h d = true
    /\ string_keys d = true.
Proof.
  unfold string_keyed_groups. rewrite forallb_forall. intros Hall Hin.
  apply list_elem_of_In, Hall in Hin. simpl in Hin.
  destruct v as [| |s]; try done. destruct (h !! s) as [[]|] eqn:Hs; try done.
  apply andb_prop in Hin as [??]. eauto 10.
Qed.

(** X3.  A request body whose groups have string keys and no nested
    dictionaries: [process_data] returns, for each group, a new dictionary
    in which every value that is a plugin is replaced by what it resolves
    to (or by the operator's reply), an entry without either is left out,
    and every other entry is as in the group. *)
Theorem process_data_resolves_or_drops h raw_data raw ud :
  h !! raw_data = Some (ODict raw) ->
  NoDup raw.*1 ->
  string_keyed_groups h raw = true ->
  exists h' out,
    process_data colors input h raw_data ud = Ok (h', out)
    /\ (forall g, dict_get raw g = None -> dict_get out g = None)
    /\ (forall g s d, dict_get raw g = Some (VRef s) -> h !! s = Some (OStore d) ->
          exists l d',
            dict_get out g = Some (VRef l) /\ h' !! l = Some (ODict d')
            /\ forall k, dict_get d' k
                 = dict_get d k ≫= resolve_slot colors input "Value" h ud).
Proof.
  intros Hraw Hnd Hgroups. unfold process_data, get_dict. rewrite Hraw.
  cbn [mbind result_bind].
  pose proof (process_data_flat_loop ud h raw [] []) as Hloop.
  rewrite app_nil_r in Hloop.
  destruct (for_each _ raw (h, [])) as [[h' out]|e].
  - destruct Hloop as (_ & Hout).
    { intros k v Hin.
      destruct (string_keyed_groups_elem _ _ _ _ Hgroups Hin) as (s & d & ? & ? & ? & _).
      eauto. }
    exists h', out. split; [done|]. split.
    + intros g Hg. specialize (Hout g). by rewrite dict_get_reverse, Hg in Hout.
    + intros g s d Hg Hs. specialize (Hout g). rewrite dict_get_reverse, Hg in Hout by done.
      destruct Hout as (l & s' & d0 & d' & [= <-] & Hs' & _ & Hl & Hd' & Hpure).
      rewrite Hs in Hs'. injection Hs' as <-. exists l, d'. split; [done|]. split; [done|].
      destruct (string_keyed_groups_elem _ _ _ _ Hgroups (dict_get_elem_of _ _ _ Hg))
        as (s2 & d2 & [= <-] & Hs2 & Hflat & Hstr).
      rewrite Hs in Hs2. injection Hs2 as <-.
      destruct (flat_loop_string_keys h ud d (flat_dict_NoDup _ _ Hflat) Hstr)
        as (d'' & Hpure' & Hchar).
      rewrite Hpure in Hpure'. by injection Hpure' as <-.
  - exfalso. destruct Hloop as (k & s & d & Hin & Hs & Hpure).
    { intros k v Hin.
      destruct (string_keyed_groups_elem _ _ _ _ Hgroups Hin) as (s & d & ? & ? & ? & _).
      eauto. }
    destruct (string_keyed_groups_elem _ _ _ _ Hgroups Hin)
      as (s2 & d2 & [= <-] & Hs2 & Hflat & Hstr).
    rewrite Hs in Hs2. injection Hs2 as <-.
    destruct (flat_loop_string_keys h ud d (flat_dict_NoDup _ _ Hflat) Hstr)
      as (d'' & Hpure' & _).
    by rewrite Hpure in Hpure'.
Qed.

(** X4.  A request body whose groups have no nested dictionaries, keys
    and values being strings or plugins: whenever [process_data] returns,
    the dictionary it returns for a group has string keys only and no plugin
    among its values, so nothing is left to resolve. *)
Theorem process_data_leaves_nothing_to_resolve h raw_data raw ud h' out :
  h !! raw_data = Some (ODict raw) ->
  flat_groups h raw = true ->
  process_data colors input h raw_data ud = Ok (h', out) ->
  forall g v, dict_get out g = Some v ->
    exists l d', v = VRef l /\ h' !! l = Some (ODict d') /\ plain_dict d' = true.
Proof.
  intros Hraw Hgroups. unfold process_data, get_dict. rewrite Hraw.
  cbn [mbind result_bind].
  pose proof (process_data_flat_loop ud h raw [] []) as Hloop.
  rewrite app_nil_r in Hloop. intros Hcall. rewrite Hcall in Hloop.
  destruct Hloop as (_ & Hout); [intros k v; by apply flat_groups_elem|].
  intros g v Hg. specialize (Hout g).
  destruct (dict_get (reverse raw) g) as [v'|]; [|by rewrite Hg in Hout].
  destruct Hout as (l & s & d & d' & -> & Hs & Hflat & Hl & Hd' & Hpure).
  rewrite Hg in Hl. injection Hl as ->. exists l, d'. split; [done|]. split; [done|].
  destruct (flat_loop_plain h ud (d.*1) d d') as [Hnd' Hplain];
    [by eapply flat_dict_NoDup| |done|].
  { intros k v Hkv. right. split; [|split].
    - apply list_elem_of_fmap. exists (k, v). split; [done|by apply dict_get_elem_of].
    - eapply flat_dict_key; [done|]. apply list_elem_of_fmap. exists (k, v).
      split; [done|by apply dict_get_elem_of].
    - by eapply flat_dict_value, dict_get_value. }
  unfold plain_dict. apply forallb_forall. intros [k v] Hin%list_elem_of_In.
  apply elem_of_dict_get in Hin; [|done].
  destruct (Hplain k v Hin) as ([s' ->] & Hnone & Hfv).
  destruct v as [| |lv]; try done. unfold flat_value in Hfv.
  apply bool_decide_eq_true in Hfv as [q Hq]. by rewrite Hq in Hnone.
Qed.

End Flat.

(** X3, on a body whose group [data] holds [user] (resolved), [pass]
    (nothing) and the literal [n]. *)
Lemma process_data_resolves_or_drops_witness :
  exists h' out,
    process_data Scenario.no_colors Scenario.enter_only More.body_heap 4 [] = Ok (h', out)
    /\ (forall g, dict_get [(KStr "data", VRef 3)] g = None -> dict_get out g = None)
    /\ (forall g s d,
          dict_get [(KStr "data", VRef 3)] g = Some (VRef s) ->
          More.body_heap !! s = Some (OStore d) ->
          exists l d',
            dict_get out g = Some (VRef l) /\ h' !! l = Some (ODict d')
            /\ forall k, dict_get d' k
                 = dict_get d k
                   ≫= resolve_slot Scenario.no_colors Scenario.enter_only "Value"
                        More.body_heap []).
Proof.
  apply (process_data_resolves_or_drops Scenario.no_colors Scenario.enter_only
           More.body_heap 4 [(KStr "data", VRef 3)] []); [reflexivity| |reflexivity].
  apply (bool_decide_unpack _). vm_compute. exact I.
Defined.

(** X4, on a body whose group [json] has a plugin for a key. *)
Lemma process_data_leaves_nothing_to_resolve_witness :
  exists h' out,
    process_data Scenario.no_colors Scenario.enter_only More.body_heap 6 [] = Ok (h', out)
    /\ forall g v, dict_get out g = Some v ->
         exists l d', v = VRef l /\ h' !! l = Some (ODict d') /\ plain_dict d' = true.
Proof.
  eexists _, _. split; [reflexivity|].
  apply (process_data_leaves_nothing_to_resolve Scenario.no_colors Scenario.enter_only
           More.body_heap 6 [(KStr "json", VRef 5)] []); reflexivity.
Defined.

(** ** The constructor *)

(** The loop of [Request.__init__] over the keywords: the store grows by
    one group store for each keyword that names a body group, and those
    keywords are the keys that are added. *)
Lemma init_data_loop kw : forall h0 d0 h1 d1,
  for_each init_data_body kw (h0, d0) = Ok (h1, d1) ->
  (exists ext, h1 = h0 ++ ext)
  /\ (forall g, is_Some (dict_get d1 g) <->
        is_Some (dict_get d0 g)
        \/ exists s, g = KStr s /\ s ∈ body_groups /\ s ∈ kw.*1)
  /\ (forall g v, dict_get d1 g = Some v ->
        dict_get d0 g = Some v
        \/ exists l s, v = VRef l /\ length h0 <= l /\ h1 !! l = Some (OStore s)).
Proof.
  induction kw as [|[nm a] kw IH]; intros h0 d0 h1 d1.
  - intros [= <- <-]. split; [exists []; by rewrite app_nil_r|]. split; [|auto].
    intros g. split; [auto|]. intros [?|(s & _ & _ & Hin)]; [done|].
    by apply elem_of_nil in Hin.
  - cbn [for_each init_data_body].
    destruct (bool_decide (nm ∈ body_groups)) eqn:Hnm.
    + apply bool_decide_eq_true in Hnm.
      destruct (DataStore a) as [s|e]; [|done]. cbn [mbind result_bind alloc].
      intros Hloop. apply IH in Hloop as ([ext ->] & Hkeys & Hvals).
      split; [exists ([OStore s] ++ ext); by rewrite app_assoc|]. split.
      * intros g. rewrite Hkeys, dict_get_set, fmap_cons. simpl.
        destruct (decide (KStr nm = g)) as [<-|Hne].
        -- split; [|eauto]. intros _. right. exists nm.
           split; [done|]. split; [done|]. apply elem_of_cons; auto.
        -- split.
           ++ intros [?|(s' & -> & ? & ?)]; [by left|]. right. exists s'.
              split; [done|]. split; [done|]. apply elem_of_cons; auto.
           ++ intros [?|(s' & -> & ? & [->|?]%elem_of_cons)]; [by left|done|].
              right. eauto.
      * intros g v Hg. destruct (Hvals g v Hg) as [Hold|(l & s' & -> & Hl & Hs')].
        -- rewrite dict_get_set in Hold. destruct (decide (KStr nm = g)) as [<-|Hne].
           ++ injection Hold as <-. right. exists (length h0), s.
              split; [done|]. split; [done|].
              rewrite <- app_assoc. rewrite lookup_app_r by lia.
              by rewrite Nat.sub_diag.
           ++ by left.
        -- right. exists l, s'. rewrite length_app in Hl. simpl in Hl.
           split; [done|]. split; [lia|done].
    + apply bool_decide_eq_false in Hnm. cbn [mbind result_bind].
      intros Hloop. apply IH in Hloop as (Hext & Hkeys & Hvals).
      split; [done|]. split; [|done].
      intros g. rewrite Hkeys, fmap_cons. simpl. split.
      * intros [?|(s' & -> & ? & ?)]; [by left|]. right. exists s'.
        split; [done|]. split; [done|]. apply elem_of_cons; auto.
      * intros [?|(s' & -> & ? & [->|?]%elem_of_cons)]; [by left|done|].
        right. eauto.
Qed.

(** What [Request.__init__] adds to the store: the header store, the
    cookie store, the group stores, the data dictionary and the request, in
    this order. *)
Lemma Request_init_Ok h fn u m kw h' l :
  Request_init h fn u m kw = Ok (h', l) ->
  exists hs cs ext d,
    h' = (h ++ [OStore hs; OStore cs]) ++ ext
         ++ [ODict d;
             ORequest {| method := m; function := fn; url := u; logger := None;
                         headers := length h; cookies := length h + 1;
                         data := length h + 2 + length ext; kwargs := kw.*1 |}]
    /\ l = length h + 3 + length ext
    /\ for_each init_data_body kw (h ++ [OStore hs; OStore cs], [])
       = Ok ((h ++ [OStore hs; OStore cs]) ++ ext, d).
Proof.
  unfold Request_init.
  intros (hs & _ & Hrest)%bind_Ok. cbn [alloc] in Hrest.
  apply bind_Ok in Hrest as (cs & _ & Hrest).
  apply bind_Ok in Hrest as ([h1 d] & Hloop & Hrest).
  rewrite <- app_assoc in Hloop. simpl in Hloop.
  destruct (init_data_loop _ _ _ _ _ Hloop) as ([ext ->] & _).
  exists hs, cs, ext, d. cbn [alloc] in Hrest. injection Hrest as <- <-.
  rewrite !length_app. simpl.
  split; [|split; [lia|done]].
  by rewrite <- !app_assoc.
Qed.

(** X5.  The request that the constructor returns is made of new objects
    and no object that existed is changed: the request has the method,
    function, url and keyword names it was built with and no logger, its
    header store, cookie store and data dictionary are three new objects,
    and the data dictionary has one entry, a new store, for each keyword
    among [params], [data], [json] and [multipart], and no other. *)
Theorem Request_init_builds_new_objects h fn u m kw h' l :
  Request_init h fn u m kw = Ok (h', l) ->
  (forall i, i < length h -> h' !! i = h !! i)
  /\ exists r hs cs d,
       h' !! l = Some (ORequest r)
       /\ (method r, function r, url r, logger r, kwargs r) = (m, fn, u, None, kw.*1)
       /\ h' !! headers r = Some (OStore hs) /\ length h <= headers r
       /\ h' !! cookies r = Some (OStore cs) /\ length h <= cookies r
       /\ h' !! data r = Some (ODict d) /\ length h <= data r
       /\ headers r <> cookies r
       /\ (forall g, is_Some (dict_get d g) <->
             exists s, g = KStr s /\ s ∈ body_groups /\ s ∈ kw.*1)
       /\ (forall g v, dict_get d g = Some v ->
             exists ls s, v = VRef ls /\ length h <= ls
               /\ h' !! ls = Some (OStore s)).
Proof.
  intros (hs & cs & ext & d & -> & -> & Hloop)%Request_init_Ok.
  destruct (init_data_loop _ _ _ _ _ Hloop) as (_ & Hkeys & Hvals).
  split.
  { intros i Hi. rewrite <- !app_assoc. by rewrite lookup_app_l. }
  eexists _, hs, cs, d. split.
  { rewrite app_assoc. rewrite lookup_app_r; rewrite !length_app; simpl; [|lia].
    replace (_ - _) with 1 by lia. done. }
  cbn [method function url logger kwargs headers cookies data].
  split; [done|]. split.
  { rewrite <- !app_assoc. rewrite lookup_app_r by lia. by rewrite Nat.sub_diag. }
  split; [lia|]. split.
  { rewrite <- !app_assoc. rewrite lookup_app_r by lia.
    by replace (_ - _) with 1 by lia. }
  split; [lia|]. split.
  { rewrite app_assoc. rewrite lookup_app_r; rewrite !length_app; simpl; [|lia].
    by replace (_ - _) with 0 by lia. }
  split; [lia|]. split; [lia|]. split.
  - intros g. rewrite Hkeys. split; [|auto]. by intros [[? [=]]|?].
  - intros g v Hg. destruct (Hvals g v Hg) as [[=]|(ls & s & -> & Hls & Hs)].
    exists ls, s. rewrite length_app in Hls. simpl in Hls.
    split; [done|]. split; [lia|].
    rewrite app_assoc. rewrite lookup_app_l; [done|]. by eapply lookup_lt_Some.
Qed.

(** ** Sending *)

Section Sending.

Variable colors : string -> string.
Variable input : string -> string.
Variable urlencode : pydict -> string.

(** [process_data] writes to dictionaries only. *)
Lemma process_data_keeps h raw_data ud h' out :
  process_data colors input h raw_data ud = Ok (h', out) -> keeps_other_objects h h'.
Proof.
  unfold process_data. intros (raw & _ & Hloop)%bind_Ok.
  change h' with (h', out).1. revert Hloop.
  apply (for_each_invariant _ (fun st => keeps_other_objects h st.1)).
  - intros [hx acc] [k v] [hy acc'] _ Hx. cbn [process_data_body].
    intros (store & _ & Hrest)%bind_Ok. cbn [alloc] in Hrest.
    apply bind_Ok in Hrest as (hz & Htr & [= <- _]).
    apply traverse_dict_keeps in Htr. intros l o Ho Hnd. apply Htr; [|done].
    apply lookup_app_l_Some. by apply Hx.
  - by intros ???.
Qed.

(** [send], taken apart. *)
Lemma send_Ok h self cfg h' log call :
  send colors input urlencode h self cfg = Ok (h', log, call) ->
  exists r processed rest,
    h !! self = Some (ORequest r)
    /\ process_data colors input
         (<[self := ORequest (set_url (set_logger r (Some (config_logger cfg)))
                                (sent_url h (active_user cfg) (url r)))]> h)
         (data r) (active_user cfg) = Ok (h', processed)
    /\ log = body_warning (method r) (body_attrs (kwargs r))
             ++ Debug "Sending HTTP request:" []
             :: Debug "%s %s" [AStr (method r);
                               AValue (sent_url h (active_user cfg) (url r))] :: rest
    /\ call_url call = sent_url h (active_user cfg) (url r)
    /\ call_function call = function r
    /\ (call_data call, call_json call, call_files call)
       = (dict_get processed (KStr "data"), dict_get processed (KStr "json"),
          dict_get processed (KStr "multipart"))
    /\ (is_Some (call_params call) <-> "params" ∈ kwargs r).
Proof.
  unfold send, get_request.
  destruct (h !! self) as [[| | |r]|] eqn:Hself; try done. cbn [mbind result_bind].
  set (r' := match get_plugin h (url _) with Some _ => _ | None => _ end).
  assert (r' = set_url (set_logger r (Some (config_logger cfg)))
                 (sent_url h (active_user cfg) (url r))) as Hr'.
  { subst r'. unfold sent_url. cbn [url set_logger]. by destruct (get_plugin h (url r)). }
  clearbody r'. subst r'.
  intros (cs & _ & (hs & _ & ([h1 processed] & Hdata & Hrest)%bind_Ok)%bind_Ok)%bind_Ok.
  apply bind_Ok in Hrest as (params & Hparams & [= <- <- <-]).
  exists r, processed. eexists. split; [done|]. split; [exact Hdata|].
  split; [reflexivity|]. do 3 (split; [done|]).
  cbn [call_params kwargs set_url set_logger] in *.
  destruct (bool_decide ("params" ∈ kwargs r)) eqn:Hkw.
  - apply bool_decide_eq_true in Hkw.
    apply bind_Ok in Hparams as (v & _ & Hparams).
    destruct v as [| |l]; try done.
    apply bind_Ok in Hparams as (d & _ & [= <-]). split; eauto.
  - apply bool_decide_eq_false in Hkw. injection Hparams as <-.
    split; [by intros [? [=]]|done].
Qed.

(** X6.  Of the objects that are there when it is called, [send] writes
    to the request and to dictionaries only.  To the request it writes
    the logger of the configuration and the url: the value of the plugin
    when the url is a plugin, [None] when that plugin has no value (the
    operator is not asked), which is also the url the transport is given.
    Every plugin, store and other request is after [send] what it was
    before. *)
Theorem send_writes_url_and_logger h self cfg r h' log call :
  h !! self = Some (ORequest r) ->
  send colors input urlencode h self cfg = Ok (h', log, call) ->
  h' !! self = Some (ORequest
                 {| method := method r; function := function r;
                    url := sent_url h (active_user cfg) (url r);
                    logger := Some (config_logger cfg);
                    headers := headers r; cookies := cookies r; data := data r;
                    kwargs := kwargs r |})
  /\ call_url call = sent_url h (active_user cfg) (url r)
  /\ forall l o, l <> self -> h !! l = Some o -> (forall d, o <> ODict d) ->
       h' !! l = Some o.
Proof.
  intros Hself (r0 & processed & rest & Hself' & Hdata & _ & Hurl & _)%send_Ok.
  rewrite Hself in Hself'. injection Hself' as <-.
  apply process_data_keeps in Hdata. split; [|split; [done|]].
  - apply Hdata; [|done]. apply list_lookup_insert_eq. by eapply lookup_lt_Some.
  - intros l o Hne Ho Hnd. apply Hdata; [|done]. by rewrite list_lookup_insert_ne.
Qed.

(** X14.  The url of a request is resolved once: when it is a plugin,
    the first [send] puts the plugin's value in its place, and a later
    [send] of the same request passes that value on, whatever the user
    data it is called with. *)
Theorem send_resolves_url_once h self r p cfg1 cfg2 h1 log1 call1 h2 log2 call2 :
  h !! self = Some (ORequest r) ->
  get_plugin h (url r) = Some p ->
  send colors input urlencode h self cfg1 = Ok (h1, log1, call1) ->
  send colors input urlencode h1 self cfg2 = Ok (h2, log2, call2) ->
  call_url call1 = resolved_url (get_value p (active_user cfg1))
  /\ call_url call2 = resolved_url (get_value p (active_user cfg1)).
Proof.
  intros Hself Hp (r0 & pr1 & rest1 & Hs1 & Hd1 & _ & Hu1 & _)%send_Ok
    (r1 & pr2 & rest2 & Hs2 & _ & _ & Hu2 & _)%send_Ok.
  rewrite Hself in Hs1. injection Hs1 as <-.
  apply process_data_keeps in Hd1.
  pose proof (Hd1 self _ (list_lookup_insert_eq _ _ _ (lookup_lt_Some _ _ _ Hself))
                (fun d => ltac:(discriminate))) as Hs1.
  rewrite Hs1 in Hs2. injection Hs2 as <-. rewrite Hu1, Hu2. cbn [url set_url].
  unfold sent_url. rewrite Hp. split; [done|].
  by destruct (get_value p (active_user cfg1)).
Qed.

(** X7.  Every template that is sent logs a warning about its body, with
    or without one: [Template.__init__] always passes the keyword [data]
    on, so [send] finds it among the keywords of the request. *)
Theorem Template_send_always_warns h m u c hd d h1 t cfg h2 log call :
  Template_init h m u c hd d = Ok (h1, t) ->
  send colors input urlencode h1 t cfg = Ok (h2, log, call) ->
  head log = Some (Warning
    (if decide (m = "GET")
     then "GET requests can only contain :params. Ignoring :data"
     else m +:+ " requests cannot contain :data at the same time. Undefined behaviour!")).
Proof.
  unfold Template_init.
  intros (hs & cs & ext & dd & -> & -> & _)%Request_init_Ok.
  intros (r & processed & rest & Hself & _ & -> & _)%send_Ok.
  rewrite app_assoc in Hself. rewrite lookup_app_r in Hself;
    rewrite !length_app in *; simpl in *; [|lia].
  replace (_ - _) with 1 in Hself by lia. injection Hself as <-.
  cbn [method kwargs]. unfold body_warning.
  destruct (decide (m = "GET")) as [->|Hm].
  - done.
  - by rewrite (bool_decide_eq_false_2 _ Hm).
Qed.


(** The loop of [process_data] returns a dictionary for each group it is
    given, and for no other. *)
Lemma process_data_loop_keys ud items : forall hx acc hy out,
  for_each (process_data_body colors input ud) items (hx, acc) = Ok (hy, out) ->
  forall g, is_Some (dict_get out g) <-> is_Some (dict_get acc g) \/ g ∈ items.*1.
Proof.
  induction items as [|[k v] items IH]; intros hx acc hy out.
  - intros [= <- <-] g. split; [auto|]. intros [?|Hin]; [done|].
    by apply elem_of_nil in Hin.
  - cbn [for_each]. intros ([h1 acc1] & Hturn & Hloop)%bind_Ok g.
    cbn [process_data_body] in Hturn.
    apply bind_Ok in Hturn as (store & _ & Hturn). cbn [alloc] in Hturn.
    apply bind_Ok in Hturn as (h2 & _ & [= <- <-]).
    rewrite (IH _ _ _ _ Hloop g), dict_get_set, fmap_cons, elem_of_cons. simpl.
    destruct (decide (k = g)) as [->|Hne]; split; try tauto; eauto.
    intros [?|[?|?]]; auto. congruence.
Qed.

(** X13.  Whatever the method of the request, [send] hands each of its
    body groups [data], [json] and [multipart] to the transport, the
    groups its warning calls ignored among them; the query parameters are
    handed on when the request was built with the keyword [params]. *)
Theorem send_passes_every_group h self r d cfg h' log call :
  h !! self = Some (ORequest r) ->
  h !! data r = Some (ODict d) ->
  send colors input urlencode h self cfg = Ok (h', log, call) ->
  (is_Some (call_data call) <-> KStr "data" ∈ d.*1)
  /\ (is_Some (call_json call) <-> KStr "json" ∈ d.*1)
  /\ (is_Some (call_files call) <-> KStr "multipart" ∈ d.*1)
  /\ (is_Some (call_params call) <-> "params" ∈ kwargs r).
Proof.
  intros Hself Hd (r0 & processed & rest & Hself' & Hdata & _ & _ & _ & Hcall & Hparams)%send_Ok.
  rewrite Hself in Hself'. injection Hself' as <-. injection Hcall as -> -> ->.
  unfold process_data, get_dict in Hdata.
  rewrite list_lookup_insert_ne in Hdata by congruence. rewrite Hd in Hdata.
  cbn [mbind result_bind] in Hdata.
  pose proof (process_data_loop_keys _ _ _ _ _ _ Hdata) as Hkeys.
  assert (forall g, is_Some (dict_get processed g) <-> g ∈ d.*1) as Hgroup.
  { intros g. rewrite Hkeys. split; [by intros [[? [=]]|?]|auto]. }
  by rewrite !Hgroup.
Qed.

(** A request whose data dictionary holds a string where a group's store
    should be cannot be sent: the string has no [to_dict]. *)
Lemma send_raises_on_plain_group h self r d k s cfg :
  h !! self = Some (ORequest r) ->
  h !! data r = Some (ODict d) ->
  (k, VStr s) ∈ d ->
  exists e, send colors input urlencode h self cfg = Raise e.
Proof.
  intros Hself Hd Hin. unfold send, get_request. rewrite Hself.
  cbn [mbind result_bind].
  set (r' := match get_plugin h (url _) with Some _ => _ | None => _ end).
  assert (data r' = data r) as Hdata. { subst r'. by destruct (get_plugin h _). }
  clearbody r'.
  destruct (process_cookies _ _ _ _ _) as [cs|e]; [|by exists e].
  destruct (process_headers _ _ _ _ _ _) as [hs|e]; [|by exists e].
  cbn [mbind result_bind].
  assert (exists e, process_data colors input (<[self := ORequest r']> h) (data r')
                      (active_user cfg) = Raise e) as [e He].
  { unfold process_data, get_dict. rewrite Hdata.
    rewrite list_lookup_insert_ne by congruence. rewrite Hd.
    cbn [mbind result_bind].
    apply (for_each_raises_in _ (fun _ => True) _ _ (k, VStr s)); [done|done|done|].
    intros [hx acc] _. by exists AttributeError. }
  rewrite He. by exists e.
Qed.

End Sending.

(** ** A template called with a body *)

(** [template.data.update(data)] files the entries of the override in the
    dictionary of the groups, next to the group stores. *)
Lemma Template_call_data h self m u c hd o h' inst :
  Template_call h self m u c hd (KwDict o) = Ok (h', inst) -> o <> [] ->
  exists r d,
    h' !! inst = Some (ORequest r) /\ h' !! data r = Some (ODict (dict_update d o)).
Proof.
  unfold Template_call, deepcopy. intros (r & Hr & Hrest)%bind_Ok Ho.
  set (r1 := if truthy m then set_method r (str_of m) else r) in Hrest.
  set (r2 := if value_truthy _ u then set_url r1 u else r1) in Hrest.
  assert (self + length h < length (h ++ map (shift_obj (length h)) h)) as Hlt.
  { unfold get_request in Hr.
    destruct (_ !! (self + length h)) eqn:Hl; [|done]. by eapply lookup_lt_Some. }
  apply bind_Ok in Hrest as (h2 & H2 & Hrest).
  apply bind_Ok in Hrest as (h3 & H3 & Hrest).
  apply bind_Ok in Hrest as (h4 & H4 & [= <- <-]).
  apply (merge_step _ (fun hx => CookieStore hx c)) in H2 as (_ & Hk2 & _).
  apply (merge_step _ (fun hx => HeaderStore hx hd)) in H3 as (_ & Hk3 & _).
  unfold kwarg_truthy in H4. rewrite (bool_decide_eq_true_2 _ Ho) in H4.
  apply update_into_Ok in H4 as (d & o0 & Hd & [= <-] & ->).
  assert (h3 !! (self + length h) = Some (ORequest r2)) as Hinst.
  { apply Hk3; [|done]. apply Hk2; [|done]. by apply list_lookup_insert_eq. }
  exists r2, d. split.
  - rewrite list_lookup_insert_ne; [done|]. congruence.
  - apply list_lookup_insert_eq. by eapply lookup_lt_Some.
Qed.

Section Overrides.

Variable colors : string -> string.
Variable input : string -> string.
Variable urlencode : pydict -> string.

(** X9.  An instance made by calling a template with a body
    ([data={...}]) that has a string for a value cannot be sent: the
    entries of the body are filed next to the groups of the instance, not
    in its group [data], and [send] raises when it takes the string for a
    group. *)
Theorem Template_call_with_body_cannot_be_sent h self m u c hd o k s h' inst cfg :
  Template_call h self m u c hd (KwDict o) = Ok (h', inst) ->
  NoDup o.*1 ->
  (k, VStr s) ∈ o ->
  exists e, send colors input urlencode h' inst cfg = Raise e.
Proof.
  intros Hcall Hnd Hin.
  destruct (Template_call_data _ _ _ _ _ _ _ _ _ Hcall) as (r & d & Hinst & Hdata).
  { intros ->. by apply elem_of_nil in Hin. }
  apply (send_raises_on_plain_group colors input urlencode h' inst r
           (dict_update d o) k s cfg Hinst Hdata).
  apply dict_get_elem_of. rewrite dict_get_update.
  rewrite (elem_of_dict_get (reverse o) k (VStr s)); [done| |by apply elem_of_reverse].
  by rewrite fmap_reverse, reverse_Permutation.
Qed.

End Overrides.

(** ** The inputs of a request *)

Lemma register_input_childless h inputs k v :
  childless_value h v = true -> register_input h inputs k v = Ok (dict_set inputs k v).
Proof.
  unfold childless_value, register_input, as_plugin, get_children_plugins.
  destruct (get_plugin h v) as [p|]; [|done]. intros Hp%negb_true_iff.
  cbn [mbind result_bind]. by rewrite Hp.
Qed.

(** The loop of [list_inputs] over a store of plugins without children:
    the entries of the store are added, each under its key. *)
Lemma list_inputs_store_childless h store inputs :
  childless_store h store = true ->
  exists out,
    list_inputs_store h store inputs = Ok out
    /\ forall k, dict_get out k = match dict_get store k with
                                  | Some v => Some v
                                  | None => dict_get inputs k
                                  end.
Proof.
  intros Hall. unfold list_inputs_store.
  destruct (for_each_files_literals
              (fun inputs nm => e ← dict_getitem store nm; register_input h inputs nm e)
              (dict_get store) store.*1) with (c := inputs) as (out & Hloop & Hout).
  - intros c k Hk. destruct (dict_get_is_Some _ _ Hk) as [v Hv]. exists v.
    split; [done|]. unfold dict_getitem. rewrite Hv. cbn [mbind result_bind].
    apply register_input_childless. unfold childless_store in Hall.
    rewrite forallb_forall in Hall.
    by apply (Hall (k, v)), list_elem_of_In, dict_get_elem_of.
  - exists out. split; [done|]. intros k. rewrite Hout.
    destruct (decide (k ∈ store.*1)) as [Hk|Hk].
    + by destruct (dict_get_is_Some _ _ Hk) as [v ->].
    + by rewrite (dict_get_None _ _ Hk).
Qed.

(** X10.  The inputs of a request whose plugins do not depend on others
    and whose body has no plugin: [list_inputs] returns the cookies and the
    headers under the keys of their stores and the url, when it is a
    plugin, under its name.  Where two of them have the same key only one
    is listed: a header before a cookie, and either before the url. *)
Theorem list_inputs_files_by_key h self r cs hs d :
  h !! self = Some (ORequest r) ->
  h !! cookies r = Some (OStore cs) ->
  h !! headers r = Some (OStore hs) ->
  h !! data r = Some (ODict d) ->
  childless_url h (url r) = true ->
  childless_store h cs = true ->
  childless_store h hs = true ->
  no_plugin_items h d = true ->
  exists inputs,
    list_inputs h self = Ok inputs
    /\ forall k, dict_get inputs k = input_of h (url r) cs hs k.
Proof.
  intros Hself Hcs Hhs Hd Hurl Hcookies Hheaders Hbody.
  unfold list_inputs, get_request, to_dict, get_dict. rewrite Hself.
  cbn [mbind result_bind].
  set (i0 := match get_plugin h (url r) with
             | Some p => [(KStr (name p), url r)]
             | None => []
             end).
  assert (match get_plugin h (url r) with
          | Some p => register_input h [] (KStr (name p)) (url r)
          | None => Ok []
          end = Ok i0) as ->.
  { subst i0. unfold childless_url in Hurl.
    destruct (get_plugin h (url r)) as [p|] eqn:Hp; [|done].
    rewrite register_input_childless; [done|]. unfold childless_value. by rewrite Hp. }
  cbn [mbind result_bind]. rewrite Hcs. cbn [mbind result_bind].
  destruct (list_inputs_store_childless h cs i0 Hcookies) as (i1 & -> & Hi1).
  cbn [mbind result_bind]. rewrite Hhs. cbn [mbind result_bind].
  destruct (list_inputs_store_childless h hs i1 Hheaders) as (i2 & -> & Hi2).
  cbn [mbind result_bind]. rewrite Hd. cbn [mbind result_bind].
  exists i2. split.
  - apply for_each_unchanged. intros [k v] Hin.
    unfold no_plugin_items in Hbody. rewrite forallb_forall in Hbody.
    apply list_elem_of_In, Hbody in Hin. simpl in Hin.
    unfold list_inputs_data_body.
    destruct (get_key_plugin h k) eqn:Hk; [done|].
    destruct (get_plugin h v) eqn:Hv; [done|].
    destruct k as [s|l]; [done|]. by rewrite Hk.
  - intros k. rewrite Hi2, Hi1. unfold input_of.
    destruct (dict_get hs k); [done|]. destruct (dict_get cs k); [done|].
    subst i0. destruct (get_plugin h (url r)); [|done]. simpl.
    destruct (decide (k = KStr (name p))); done.
Qed.

(** ** A dictionary that holds itself *)

Section Cycles.

Variable colors : string -> string.
Variable input : string -> string.

(** The turn of [traverse_dict] for an entry that is a dictionary raises
    what the traversal of that dictionary raises. *)
Lemma traverse_dict_body_nested rec ud data (h : heap) k d l d0 e :
  h !! data = Some (ODict d) ->
  dict_get d k = Some (VRef l) ->
  h !! l = Some (ODict d0) ->
  rec h l = Raise e ->
  traverse_dict_body colors input rec ud data h k = Raise e.
Proof.
  intros Hdata Hk Hl Hrec. unfold traverse_dict_body, get_dict, dict_getitem, get_plugin.
  rewrite Hdata. cbn [mbind result_bind]. rewrite Hk. cbn [mbind result_bind].
  rewrite Hl, Hrec. done.
Qed.

(** The traversal of a dictionary whose first entry is the dictionary
    itself comes back to it until the interpreter gives up. *)
Lemma traverse_dict_cyclic ud depth : forall (h : heap) l b dd,
  h !! l = Some (ODict ((KStr b, VRef l) :: dd)) ->
  traverse_dict colors input depth h l ud = Raise RecursionError.
Proof.
  induction depth as [|depth IH]; intros h l b dd Hl; [done|].
  cbn [traverse_dict]. unfold get_dict at 1. rewrite Hl.
  cbn [mbind result_bind]. rewrite fmap_cons. cbn [for_each fst].
  rewrite (traverse_dict_body_nested _ ud l h (KStr b) _ l
             ((KStr b, VRef l) :: dd) RecursionError Hl);
    [done| |done|by eapply IH].
  simpl. by rewrite decide_True.
Qed.

(** So does the traversal of a dictionary whose first entry is such a
    dictionary. *)
Lemma traverse_dict_into_cyclic ud depth (h : heap) data a l sd b dd :
  h !! data = Some (ODict ((KStr a, VRef l) :: sd)) ->
  h !! l = Some (ODict ((KStr b, VRef l) :: dd)) ->
  traverse_dict colors input depth h data ud = Raise RecursionError.
Proof.
  intros Hdata Hl. destruct depth as [|depth]; [done|].
  cbn [traverse_dict]. unfold get_dict at 1. rewrite Hdata.
  cbn [mbind result_bind]. rewrite fmap_cons. cbn [for_each fst].
  rewrite (traverse_dict_body_nested _ ud data h (KStr a) _ l
             ((KStr b, VRef l) :: dd) RecursionError Hdata);
    [done| |done|by eapply traverse_dict_cyclic].
  simpl. by rewrite decide_True.
Qed.

(** X11.  A body whose first group has for its first value a dictionary
    that holds itself (as its own first value): [process_data] follows
    the dictionary into itself and raises [RecursionError], whatever the
    depth at which the interpreter stops. *)
Theorem process_data_cyclic_RecursionError h raw_data g s raw a l sd b dd ud :
  h !! raw_data = Some (ODict ((g, VRef s) :: raw)) ->
  h !! s = Some (OStore ((KStr a, VRef l) :: sd)) ->
  h !! l = Some (ODict ((KStr b, VRef l) :: dd)) ->
  process_data colors input h raw_data ud = Raise RecursionError.
Proof.
  intros Hraw Hs Hl. unfold process_data, get_dict. rewrite Hraw.
  cbn [mbind result_bind for_each process_data_body]. unfold to_dict. rewrite Hs.
  cbn [mbind result_bind alloc]. change recursion_limit with (S 999).
  set (hb := h ++ [ODict ((KStr a, VRef l) :: sd)]).
  assert (hb !! length h = Some (ODict ((KStr a, VRef l) :: sd))) as Hnew.
  { subst hb. rewrite lookup_app_r by lia. by rewrite Nat.sub_diag. }
  assert (hb !! l = Some (ODict ((KStr b, VRef l) :: dd))) as Hl'.
  { subst hb. by apply lookup_app_l_Some. }
  by rewrite (traverse_dict_into_cyclic ud _ hb (length h) a l sd b dd Hnew Hl').
Qed.

End Cycles.

(** ** Bodies that [process_data] leaves alone *)

Section Frame.

Variable colors : string -> string.
Variable input : string -> string.

(** X12.  A request body whose groups have no nested dictionaries:
    [process_data] changes no object that is there when it is called, so
    the groups keep their plugins and the body can be resolved again; it
    adds its new dictionaries to the store and returns one for each group,
    under the name of the group. *)
Theorem process_data_keeps_flat_groups h raw_data raw ud h' out :
  h !! raw_data = Some (ODict raw) ->
  flat_groups h raw = true ->
  process_data colors input h raw_data ud = Ok (h', out) ->
  (exists ext, h' = h ++ ext)
  /\ forall g, is_Some (dict_get out g) <-> is_Some (dict_get raw g).
Proof.
  intros Hraw Hgroups. unfold process_data, get_dict. rewrite Hraw.
  cbn [mbind result_bind].
  pose proof (process_data_flat_loop colors input ud h raw [] []) as Hloop.
  rewrite app_nil_r in Hloop. intros Hcall. rewrite Hcall in Hloop.
  destruct Hloop as (Hext & Hout); [intros k v; by apply flat_groups_elem|].
  split; [done|]. intros g. specialize (Hout g).
  assert (is_Some (dict_get (reverse raw) g) <-> is_Some (dict_get raw g)) as <-.
  { split; intros [v Hv%dict_get_elem_of]; apply dict_get_is_Some, list_elem_of_fmap;
      exists (g, v); (split; [done|]); by apply elem_of_reverse. }
  destruct (dict_get (reverse raw) g) as [v|].
  - destruct Hout as (l & _ & _ & _ & _ & _ & _ & -> & _). split; eauto.
  - rewrite Hout. done.
Qed.

End Frame.

(** ** The properties above on concrete requests *)

(** X5, on [Request.put("http://x", data={"password": password})]. *)
Lemma Request_init_builds_new_objects_witness :
  exists h' l,
    Scenario.password_request = Ok (h', l)
    /\ (forall i, i < length Scenario.password_heap ->
          h' !! i = Scenario.password_heap !! i)
    /\ exists r hs cs d,
         h' !! l = Some (ORequest r)
         /\ (method r, function r, url r, logger r, kwargs r)
            = ("PUT", "requests.put", VStr "http://x", None, ["data"])
         /\ h' !! headers r = Some (OStore hs) /\ length Scenario.password_heap <= headers r
         /\ h' !! cookies r = Some (OStore cs) /\ length Scenario.password_heap <= cookies r
         /\ h' !! data r = Some (ODict d) /\ length Scenario.password_heap <= data r
         /\ headers r <> cookies r
         /\ (forall g, is_Some (dict_get d g) <->
               exists s, g = KStr s /\ s ∈ body_groups /\ s ∈ ["data"])
         /\ (forall g v, dict_get d g = Some v ->
               exists ls s, v = VRef ls /\ length Scenario.password_heap <= ls
                 /\ h' !! ls = Some (OStore s)).
Proof.
  eexists _, _. split; [vm_compute; reflexivity|].
  apply (Request_init_builds_new_objects Scenario.password_heap "requests.put"
           (VStr "http://x") "PUT" [("data", KwDict [(KStr "password", VRef 0)])]).
  vm_compute. reflexivity.
Defined.

(** X6, on [Scenario.mixed_request], whose url is a plugin without a
    value. *)
Lemma send_writes_url_and_logger_witness :
  exists h' log call,
    send Scenario.no_colors Scenario.enter_only Scenario.plain_urlencode
      More.mixed_built 8 Scenario.pconfig = Ok (h', log, call)
    /\ h' !! 8 = Some (ORequest
                   {| method := "GET"; function := "requests.get"; url := VNone;
                      logger := Some "raider"; headers := 4; cookies := 5; data := 7;
                      kwargs := ["cookies"; "headers"; "json"] |})
    /\ call_url call = VNone
    /\ forall l o, l <> 8 -> More.mixed_built !! l = Some o ->
         (forall d, o <> ODict d) -> h' !! l = Some o.
Proof.
  eexists _, _, _. split; [vm_compute; reflexivity|].
  eapply (send_writes_url_and_logger Scenario.no_colors Scenario.enter_only
            Scenario.plain_urlencode More.mixed_built 8 Scenario.pconfig More.mixed);
    [reflexivity|vm_compute; reflexivity].
Defined.

(** X7, on a template without a body. *)
Lemma Template_send_always_warns_witness :
  exists h1 t h2 log call,
    Template_init Scenario.token_heap "GET" (VStr "http://x") KwNone KwNone KwNone
    = Ok (h1, t)
    /\ send Scenario.no_colors Scenario.enter_only Scenario.plain_urlencode
         h1 t Scenario.pconfig = Ok (h2, log, call)
    /\ head log
       = Some (Warning "GET requests can only contain :params. Ignoring :data").
Proof.
  eexists _, _, _, _, _. split; [vm_compute; reflexivity|].
  split; [vm_compute; reflexivity|].
  eapply (Template_send_always_warns Scenario.no_colors Scenario.enter_only
            Scenario.plain_urlencode Scenario.token_heap "GET" (VStr "http://x")
            KwNone KwNone KwNone _ _ Scenario.pconfig);
    [vm_compute; reflexivity|vm_compute; reflexivity].
Defined.


(** X14, on a request whose url is the first value of the user data,
    sent for the user of [a] and then for the user of [b]. *)
Lemma send_resolves_url_once_witness :
  exists h1 log1 call1 h2 log2 call2,
    send Scenario.no_colors Scenario.enter_only Scenario.plain_urlencode
      More.per_user_heap 4 (More.pconfig_of "a") = Ok (h1, log1, call1)
    /\ send Scenario.no_colors Scenario.enter_only Scenario.plain_urlencode
         h1 4 (More.pconfig_of "b") = Ok (h2, log2, call2)
    /\ call_url call1 = VStr "a"
    /\ call_url call2 = VStr "a".
Proof.
  eexists _, _, _, _, _, _. split; [vm_compute; reflexivity|].
  split; [vm_compute; reflexivity|].
  eapply (send_resolves_url_once Scenario.no_colors Scenario.enter_only
            Scenario.plain_urlencode More.per_user_heap 4 More.per_user
            (More.first_value "u") (More.pconfig_of "a") (More.pconfig_of "b"));
    [reflexivity|reflexivity|vm_compute; reflexivity|vm_compute; reflexivity].
Defined.

(** X13, on [Scenario.mixed_request], a GET request with the group
    [json]. *)
Lemma send_passes_every_group_witness :
  exists h' log call,
    send Scenario.no_colors Scenario.enter_only Scenario.plain_urlencode
      More.mixed_built 8 Scenario.pconfig = Ok (h', log, call)
    /\ (is_Some (call_data call) <-> KStr "data" ∈ [KStr "json"])
    /\ (is_Some (call_json call) <-> KStr "json" ∈ [KStr "json"])
    /\ (is_Some (call_files call) <-> KStr "multipart" ∈ [KStr "json"])
    /\ (is_Some (call_params call) <-> "params" ∈ ["cookies"; "headers"; "json"]).
Proof.
  eexists _, _, _. split; [vm_compute; reflexivity|].
  eapply (send_passes_every_group Scenario.no_colors Scenario.enter_only
            Scenario.plain_urlencode More.mixed_built 8 More.mixed
            [(KStr "json", VRef 6)] Scenario.pconfig);
    [reflexivity|reflexivity|vm_compute; reflexivity].
Defined.

(** X9, on a template called with [data={"user": "alice"}]. *)
Lemma Template_call_with_body_cannot_be_sent_witness :
  exists h' inst,
    Template_call Scenario.template_heap 5 None VNone KwNone KwNone
      (KwDict [(KStr "user", VStr "alice")]) = Ok (h', inst)
    /\ exists e, send Scenario.no_colors Scenario.enter_only Scenario.plain_urlencode
                   h' inst Scenario.pconfig = Raise e.
Proof.
  eexists _, _. split; [vm_compute; reflexivity|].
  eapply (Template_call_with_body_cannot_be_sent Scenario.no_colors Scenario.enter_only
            Scenario.plain_urlencode Scenario.template_heap 5 None VNone KwNone KwNone
            [(KStr "user", VStr "alice")] (KStr "user") "alice").
  - vm_compute. reflexivity.
  - apply (bool_decide_unpack _). vm_compute. exact I.
  - apply (bool_decide_unpack _). vm_compute. exact I.
Defined.

(** X10, on a request with the cookies [a] and [b] and a header that is
    named [a] as well. *)
Lemma list_inputs_files_by_key_witness :
  exists inputs,
    list_inputs More.shadow_heap 7 = Ok inputs
    /\ forall k, dict_get inputs k
         = input_of More.shadow_heap (VRef 3)
             [(KStr "a", VRef 0); (KStr "b", VRef 1)] [(KStr "a", VRef 2)] k.
Proof.
  apply (list_inputs_files_by_key More.shadow_heap 7 More.shadow_request
           [(KStr "a", VRef 0); (KStr "b", VRef 1)] [(KStr "a", VRef 2)] []);
    reflexivity.
Defined.

(** X11, on a body whose group [json] holds a dictionary that holds
    itself. *)
Lemma process_data_cyclic_RecursionError_witness :
  process_data Scenario.no_colors Scenario.enter_only More.cyclic_heap 2 []
  = Raise RecursionError.
Proof.
  apply (process_data_cyclic_RecursionError Scenario.no_colors Scenario.enter_only
           More.cyclic_heap 2 (KStr "json") 1 [] "a" 0 [] "self" []); reflexivity.
Defined.

(** X12, on the body with the group [json] of [More.body_heap]. *)
Lemma process_data_keeps_flat_groups_witness :
  exists h' out,
    process_data Scenario.no_colors Scenario.enter_only More.body_heap 6 [] = Ok (h', out)
    /\ (exists ext, h' = More.body_heap ++ ext)
    /\ forall g, is_Some (dict_get out g)
                 <-> is_Some (dict_get [(KStr "json", VRef 5)] g).
Proof.
  eexists _, _. split; [reflexivity|].
  apply (process_data_keeps_flat_groups Scenario.no_colors Scenario.enter_only
           More.body_heap 6 [(KStr "json", VRef 5)] []); reflexivity.
Defined.
